(** * A shallow embedding of the chat client (useChat, ChatMessage, ChatInput)
      and of the session store its backend is specified to keep.

    The client is TypeScript/React.  Its strings are modelled as sequences of
    UTF-16 code units, its hook state as a record of the four [useState]
    cells, and its asynchronous [sendMessage] as a computation in a small
    state-and-exception monad over a world that also holds the network and a
    trace of every request that was sent. *)

From Stdlib Require Import ZArith NArith String Ascii DecimalString DecimalZ.
From stdpp Require Import base list gmap fin_maps.

Local Open Scope N_scope.

(** ** JavaScript strings *)

Abbreviation jsstring := (list N).

Module JsString.

(** A string literal of the source whose characters are all ASCII. *)
Definition lit (s : string) : jsstring :=
  map N_of_ascii (list_ascii_of_string s).

(** [WhiteSpace] and [LineTerminator] code points, the characters that
    [String.prototype.trim] strips. *)
Definition isWhiteSpace (c : N) : bool :=
  (c =? 9) || (c =? 10) || (c =? 11) || (c =? 12) || (c =? 13)
  || (c =? 32) || (c =? 160) || (c =? 5760)
  || ((8192 <=? c) && (c <=? 8202))
  || (c =? 8232) || (c =? 8233) || (c =? 8239) || (c =? 8287)
  || (c =? 12288) || (c =? 65279).

Fixpoint trimStart (s : jsstring) : jsstring :=
  match s with
  | [] => []
  | c :: s' => if isWhiteSpace c then trimStart s' else s
  end.

Definition trimEnd (s : jsstring) : jsstring :=
  rev (trimStart (rev s)).

Definition trim (s : jsstring) : jsstring :=
  trimEnd (trimStart s).

(** Truthiness of a string: only the empty string is falsy. *)
Definition truthy (s : jsstring) : bool :=
  match s with [] => false | _ :: _ => true end.

Fixpoint startsWith (pat s : jsstring) : bool :=
  match pat, s with
  | [], _ => true
  | _ :: _, [] => false
  | p :: pat', c :: s' => (p =? c) && startsWith pat' s'
  end.

(** [s.replace(pat, rep)] with a string pattern: the first occurrence
    only.  The replacement strings of the source contain no [$]. *)
Fixpoint replace (pat rep s : jsstring) : jsstring :=
  if startsWith pat s then rep ++ drop (length pat) s
  else match s with
       | [] => []
       | c :: s' => c :: replace pat rep s'
       end.

(** [Number.isSafeInteger]: the integers a number holds exactly. *)
Definition isSafeInteger (z : Z) : bool :=
  (Z.abs z <=? 2 ^ 53 - 1)%Z.

(** [String(n)] for a safe integer [n]: its digits in plain decimal, with
    a minus sign when negative.  Beyond the safe integers a number is a
    rounded double, written with an exponent from 1e21 on, and this
    function does not describe it; what is proved from it about a number
    that is not an HTTP status is stated for safe integers. *)
Definition ofNumber (z : Z) : jsstring :=
  lit (NilZero.string_of_int (Z.to_int z)).

End JsString.

(** ** src/types/chat.ts *)

Inductive Role := user | assistant.

Module Source.
Record t := mk { file : jsstring; row_index : Z }.
End Source.

Module Message.
Record t := mk {
  id : jsstring;
  role : Role;
  content : jsstring;
  sources : option (list Source.t);
  timestamp : Z
}.
End Message.

Module ChatResponse.
Record t := mk {
  session_id : jsstring;
  answer : jsstring;
  sources : list Source.t
}.
End ChatResponse.

(** JSON values.  A number is integral; an object is its list of members
    in insertion order. *)
#[warnings="-register-all"]
Inductive json :=
| JNull
| JBool (b : bool)
| JNumber (z : Z)
| JString (s : jsstring)
| JArray (items : list json)
| JObject (members : list (string * json)).

Fixpoint member (k : string) (ms : list (string * json)) : option json :=
  match ms with
  | [] => None
  | (k', v) :: ms' => if String.eqb k k' then Some v else member k ms'
  end.

Definition keys (ms : list (string * json)) : list string := map fst ms.

Definition isString (v : json) : bool :=
  match v with JString _ => true | _ => false end.

Definition isInteger (v : json) : bool :=
  match v with JNumber _ => true | _ => false end.

Definition optional (p : json -> bool) (o : option json) : bool :=
  match o with None => true | Some v => p v end.

Definition required (p : json -> bool) (o : option json) : bool :=
  match o with None => false | Some v => p v end.

(** The interface [ChatRequest] read as a predicate on a JSON value:
    [{ session_id?: string; message: string; top_k?: number }]. *)
Definition ChatRequest (v : json) : bool :=
  match v with
  | JObject ms =>
      forallb (fun k => bool_decide (k ∈ ["session_id"; "message"; "top_k"]%string))
              (keys ms)
      && optional isString (member "session_id" ms)
      && required isString (member "message" ms)
      && optional isInteger (member "top_k" ms)
  | _ => false
  end.

(** ** The world a hook runs in *)

(** What a [throw] or a rejected promise carries: an [Error] object with
    its [message], or some value that is not an [Error]. *)
Inductive Thrown :=
| ErrorObject (message : jsstring)
| NotAnError.

(** The part of a [Response] the hook reads: [status], and what
    [response.json()] settles to once awaited (typed [ChatResponse] by the
    annotation in the source). *)
Module Response.
Record t := mk {
  status : N;
  json : Thrown + ChatResponse.t
}.
Definition ok (r : t) : bool := (200 <=? status r) && (status r <=? 299).
End Response.

Module RequestInit.
Record t := mk {
  method : jsstring;
  headers : list (jsstring * jsstring);
  body : json
}.
End RequestInit.

(** A call of [fetch(url, init)] and what its promise settled to. *)
Definition Fetched : Type := (jsstring * RequestInit.t) * (Thrown + Response.t).

(** Everything outside the hook: the network (a state machine that answers
    each request), [crypto.randomUUID] and the clock behind [new Date()]. *)
Record Env := {
  Net : Type;
  transport : Net -> jsstring * RequestInit.t -> (Thrown + Response.t) * Net;
  randomUUID : nat -> jsstring;
  now : nat -> Z
}.

(** The four [useState] cells of [useChat]. *)
Record HookState := {
  messages : list Message.t;
  isLoading : bool;
  sessionId : option jsstring;
  error : option jsstring
}.

Definition initialState : HookState :=
  {| messages := []; isLoading := false; sessionId := None; error := None |}.

Section Hook.
Context (E : Env).

Record World := {
  hook : HookState;
  net : Net E;
  trace : list Fetched;
  tick : nat
}.

(** ** A state-and-exception monad

    A computation may change the world and then either return or throw;
    what it changed before throwing stays changed. *)
Definition M (A : Type) : Type := World -> (Thrown + A) * World.

Definition ret {A} (a : A) : M A := fun w => (inr a, w).

Definition bind {A B} (c : M A) (k : A -> M B) : M B :=
  fun w =>
    match c w with
    | (inl e, w') => (inl e, w')
    | (inr a, w') => k a w'
    end.

Definition throw {A} (e : Thrown) : M A := fun w => (inl e, w).

(** [try { body } catch (err) { handler } finally { finalizer }] *)
Definition try_catch_finally {A}
    (body : M A) (handler : Thrown -> M A) (finalizer : M unit) : M A :=
  fun w =>
    let '(r, w1) := body w in
    let '(r', w2) :=
      match r with
      | inl err => handler err w1
      | inr a => (inr a, w1)
      end in
    match finalizer w2 with
    | (inl e, w3) => (inl e, w3)
    | (inr _, w3) => (r', w3)
    end.

#[local] Instance M_ret : MRet M := @ret.
#[local] Instance M_bind : MBind M := fun A B k c => bind c k.

(** ** State setters, as React applies them *)

Definition update (f : HookState -> HookState) : M unit :=
  fun w => (inr tt, {| hook := f (hook w); net := net w;
                       trace := trace w; tick := tick w |}).

Definition setMessages (f : list Message.t -> list Message.t) : M unit :=
  update (fun s => {| messages := f (messages s); isLoading := isLoading s;
                      sessionId := sessionId s; error := error s |}).

Definition setIsLoading (b : bool) : M unit :=
  update (fun s => {| messages := messages s; isLoading := b;
                      sessionId := sessionId s; error := error s |}).

Definition setSessionId (v : option jsstring) : M unit :=
  update (fun s => {| messages := messages s; isLoading := isLoading s;
                      sessionId := v; error := error s |}).

Definition setError (v : option jsstring) : M unit :=
  update (fun s => {| messages := messages s; isLoading := isLoading s;
                      sessionId := sessionId s; error := v |}).

(** ** The platform *)

Definition crypto_randomUUID : M jsstring :=
  fun w => (inr (randomUUID E (tick w)),
            {| hook := hook w; net := net w; trace := trace w;
               tick := S (tick w) |}).

Definition new_Date : M Z :=
  fun w => (inr (now E (tick w)),
            {| hook := hook w; net := net w; trace := trace w;
               tick := S (tick w) |}).

(** [await fetch(url, init)]: the network answers and the exchange is
    recorded at the end of the trace. *)
Definition fetch (url : jsstring) (init : RequestInit.t) : M Response.t :=
  fun w =>
    let '(r, n) := transport E (net w) (url, init) in
    (r, {| hook := hook w; net := n;
           trace := trace w ++ [((url, init), r)]; tick := tick w |}).

(** [await response.json()] *)
Definition Response_json (r : Response.t) : M ChatResponse.t :=
  fun w => (Response.json r, w).

(** ** src/hooks/useChat.ts *)

Definition API_URL : jsstring := JsString.lit "http://localhost:8000".

(** The sign U+26A0 followed by the variation selector U+FE0F. *)
Definition warning_sign : jsstring := [9888; 65039].

(** How [JSON.stringify] writes a [string | null]. *)
Definition nullable (v : option jsstring) : json :=
  match v with
  | Some s => JString s
  | None => JNull
  end.

(** [sendMessage] as one render of the hook creates it: [sessionId] is
    the value the callback closed over, [topK] is [None] when the caller
    passes no second argument. *)
Definition sendMessage (sessionId : option jsstring)
    (content : jsstring) (topK : option Z) : M unit :=
  let topK := default 5%Z topK in
  if negb (JsString.truthy (JsString.trim content)) then mret tt else
  id ← crypto_randomUUID;
  timestamp ← new_Date;
  let userMessage :=
    Message.mk id user (JsString.trim content) None timestamp in
  setMessages (fun prev => prev ++ [userMessage]);;
  setIsLoading true;;
  setError None;;
  try_catch_finally
    (response ← fetch (API_URL ++ JsString.lit "/chat")
       {| RequestInit.method := JsString.lit "POST";
          RequestInit.headers :=
            [(JsString.lit "Content-Type", JsString.lit "application/json")];
          RequestInit.body :=
            JObject [("session_id", nullable sessionId);
                     ("message", JString (JsString.trim content));
                     ("top_k", JNumber topK)]%string |};
     if negb (Response.ok response) then
       throw (ErrorObject
                (JsString.lit "Server error: "
                 ++ JsString.ofNumber (Z.of_N (Response.status response))))
     else
       data ← Response_json response;
       setSessionId (Some (ChatResponse.session_id data));;
       id ← crypto_randomUUID;
       timestamp ← new_Date;
       let assistantMessage :=
         Message.mk id assistant (ChatResponse.answer data)
                    (Some (ChatResponse.sources data)) timestamp in
       setMessages (fun prev => prev ++ [assistantMessage]))
    (fun err =>
       let errorMessage :=
         match err with
         | ErrorObject message => message
         | NotAnError => JsString.lit "Failed to send message"
         end in
       setError (Some errorMessage);;
       id ← crypto_randomUUID;
       timestamp ← new_Date;
       let errorResponse :=
         Message.mk id assistant
           (warning_sign ++ JsString.lit " " ++ errorMessage
            ++ JsString.lit ". Make sure the backend is running at "
            ++ API_URL)
           None timestamp in
       setMessages (fun prev => prev ++ [errorResponse]))
    (setIsLoading false).

Definition clearChat : M unit :=
  setMessages (fun _ => []);;
  setSessionId None;;
  setError None.

(** What [useChat()] hands to a render: the cells, and the two callbacks
    with [sendMessage] closed over this render's [sessionId]. *)
Record UseChat := {
  use_state : HookState;
  use_sendMessage : jsstring -> option Z -> M unit;
  use_clearChat : M unit
}.

Definition useChat (s : HookState) : UseChat :=
  {| use_state := s;
     use_sendMessage := sendMessage (sessionId s);
     use_clearChat := clearChat |}.

(** The callbacks of the current render, invoked on the current world. *)
Definition call_sendMessage (content : jsstring) (topK : option Z) : M unit :=
  fun w => use_sendMessage (useChat (hook w)) content topK w.

Definition call_clearChat : M unit :=
  fun w => use_clearChat (useChat (hook w)) w.

(** ** ChatInput.handleSubmit

    [input] is the text area's state, [isLoading] and [onSend] are the
    props; the result is the new value of [input]. *)
Definition handleSubmit (input : jsstring) (isLoading : bool)
    (onSend : jsstring -> M unit) : M jsstring :=
  if JsString.truthy (JsString.trim input) && negb isLoading then
    onSend input;;
    mret []
  else mret input.

End Hook.

Arguments hook {E} _.
Arguments net {E} _.
Arguments trace {E} _.
Arguments tick {E} _.

(** ** src/components/ChatMessage.tsx *)

(** What a [SourceBadge] puts on screen: the file label, the colour class
    chosen for it, and the row text. *)
Record Badge := {
  fileName : jsstring;
  isHoldings : bool;
  rowText : jsstring
}.

Definition SourceBadge (source : Source.t) : Badge :=
  let fileName := JsString.replace (JsString.lit ".csv") [] (Source.file source) in
  {| fileName := fileName;
     isHoldings := bool_decide (fileName = JsString.lit "holdings");
     rowText := JsString.lit "row " ++ JsString.ofNumber (Source.row_index source) |}.

(** The badges of a message, in document order: none unless [sources] is
    present and not empty, else one per source through [map]. *)
Definition ChatMessage_sources (message : Message.t) : list Badge :=
  match Message.sources message with
  | Some ((_ :: _) as sources) => map SourceBadge sources
  | _ => []
  end.

(** The paragraph showing the text of a message. *)
Definition ChatMessage_text (message : Message.t) : jsstring :=
  Message.content message.

(** ** Configuration defaults (the table of the backend's README) *)

Definition TOP_K : Z := 5.
Definition MAX_HISTORY : nat := 10.

(** ** The session store *)

Module SessionStore.

(** Modelled from the spec: the backend's session store (app/main.py and
    app/rag.py are not among the sources).  A [Turn] is one message of a
    session, [role], [content] and, for assistant turns, [sources]. *)
Record Turn := {
  role : Role;
  content : jsstring;
  sources : option (list Source.t)
}.

(** Modelled from the spec: the store maps each session id to its
    history, most recent turn last; the number of sessions is unbounded. *)
Abbreviation t := (gmap jsstring (list Turn)).

(** Modelled from the spec: "allocate a new unique id", which the testable
    properties require to be non-empty.  The id is opaque; any id that is
    neither empty nor in use will do. *)
Definition new_id (store : t) : jsstring :=
  fresh ({[ [] ]} ∪ dom store).

(** Modelled from the spec: [get_or_create(session_id?)] returns the
    session of a known id, and for an absent or unknown id allocates a new
    id with an empty history. *)
Definition get_or_create (store : t) (session_id : option jsstring)
    : jsstring * t :=
  let create := (new_id store, <[new_id store := []]> store) in
  match session_id with
  | None => create
  | Some id =>
      match store !! id with
      | Some _ => (id, store)
      | None => create
      end
  end.

(** Modelled from the spec: once the history is longer than [cap] the
    oldest turns go, first in first out. *)
Definition evict (cap : nat) (history : list Turn) : list Turn :=
  drop (length history - cap) history.

Definition append_turn (cap : nat) (history : list Turn) (turn : Turn)
    : list Turn :=
  evict cap (history ++ [turn]).

(** Modelled from the spec: [append(session_id, turn)]. *)
Definition append (cap : nat) (store : t) (session_id : jsstring)
    (turn : Turn) : t :=
  alter (fun history => append_turn cap history turn) session_id store.

End SessionStore.

(** ** The backend behind [POST /chat] *)

Module Backend.

(** What may happen to one request on its way.  No code of the repository
    decides this: the theorems hold for every schedule of faults. *)
Inductive Fault :=
| Healthy                (* handled, and the reply arrives *)
| Unreachable            (* never reaches the server; [fetch] rejects *)
| ReplyLost              (* handled, but the reply is lost; [fetch] rejects *)
| BadResponse (status : N). (* not handled; a reply with no usable body *)

(** The store, and the faults of the requests to come (none left means
    healthy from then on). *)
Record State := {
  sessions : SessionStore.t;
  faults : list Fault
}.

Definition next_fault (s : State) : Fault :=
  match faults s with
  | [] => Healthy
  | f :: _ => f
  end.

Section Handler.
(** The evidence pipeline (router, index, aggregation, composer), from
    the question, the prior turns and [top_k] to an answer with its
    sources. *)
Context (pipeline : jsstring -> list SessionStore.Turn -> Z
                    -> jsstring * list Source.t).

(** Modelled from the spec: the inbound request
    [{ session_id?, message, top_k? }].  A [session_id] that is not a
    string names no session; [top_k] defaults to [TOP_K]. *)
Definition decode (body : json) : option (option jsstring * jsstring * Z) :=
  match body with
  | JObject ms =>
      match member "message" ms with
      | Some (JString message) =>
          Some (match member "session_id" ms with
                | Some (JString id) => Some id
                | _ => None
                end,
                message,
                match member "top_k" ms with
                | Some (JNumber k) => k
                | _ => TOP_K
                end)
      | _ => None
      end
  | _ => None
  end.

(** Modelled from the spec: the control flow of section 2.  The session
    is looked up or created, the pipeline answers from the prior turns,
    and the user turn and the assistant turn are appended. *)
Definition chat (store : SessionStore.t) (body : json)
    : Response.t * SessionStore.t :=
  match decode body with
  | None =>
      (Response.mk 422 (inl (ErrorObject (JsString.lit "Unexpected token"))),
       store)
  | Some (session_id, message, top_k) =>
      let '(id, store1) := SessionStore.get_or_create store session_id in
      let history := default [] (store1 !! id) in
      let '(answer, sources) := pipeline message history top_k in
      let store2 :=
        SessionStore.append MAX_HISTORY store1 id
          (SessionStore.Build_Turn user message None) in
      let store3 :=
        SessionStore.append MAX_HISTORY store2 id
          (SessionStore.Build_Turn assistant answer (Some sources)) in
      (Response.mk 200 (inr (ChatResponse.mk id answer sources)), store3)
  end.

Definition Failed_to_fetch : Thrown :=
  ErrorObject (JsString.lit "Failed to fetch").

(** The network as the hook meets it: the next fault decides whether the
    request reaches [chat] and whether its reply comes back. *)
Definition serve (s : State) (request : jsstring * RequestInit.t)
    : (Thrown + Response.t) * State :=
  let rest := tail (faults s) in
  match next_fault s with
  | Healthy =>
      let '(response, store) :=
        chat (sessions s) (RequestInit.body (snd request)) in
      (inr response, {| sessions := store; faults := rest |})
  | Unreachable =>
      (inl Failed_to_fetch, {| sessions := sessions s; faults := rest |})
  | ReplyLost =>
      let '(_, store) :=
        chat (sessions s) (RequestInit.body (snd request)) in
      (inl Failed_to_fetch, {| sessions := store; faults := rest |})
  | BadResponse status =>
      (inr (Response.mk status
              (inl (ErrorObject (JsString.lit "Unexpected end of JSON input")))),
       {| sessions := sessions s; faults := rest |})
  end.

(** The client's world when it talks to this backend. *)
Definition env (uuid : nat -> jsstring) (clock : nat -> Z) : Env :=
  {| Net := State; transport := serve;
     randomUUID := uuid; now := clock |}.

End Handler.

End Backend.

(** ** Running a conversation *)

(** The user sends one message after the other, each through the callback
    of the render that follows the previous call (the input box is disabled
    while a call is loading, so calls do not overlap). *)
Fixpoint send_all {E} (calls : list (jsstring * option Z)) (w : World E)
    : World E :=
  match calls with
  | [] => w
  | (content, topK) :: calls' =>
      send_all calls' (snd (call_sendMessage E content topK w))
  end.

(** ** One call, spelled out

    The pieces in which the theorems below speak about a call. *)

(** The request of a call: [fetch]'s two arguments. *)
Definition chat_request (sessionId : option jsstring) (content : jsstring)
    (topK : option Z) : jsstring * RequestInit.t :=
  (API_URL ++ JsString.lit "/chat",
   {| RequestInit.method := JsString.lit "POST";
      RequestInit.headers :=
        [(JsString.lit "Content-Type", JsString.lit "application/json")];
      RequestInit.body :=
        JObject [("session_id", nullable sessionId);
                 ("message", JString (JsString.trim content));
                 ("top_k", JNumber (default 5%Z topK))]%string |}).

(** The body of an exchange on the trace, and its members. *)
Definition request_body (request : jsstring * RequestInit.t) : json :=
  RequestInit.body (snd request).

Definition body_of (x : Fetched) : json := request_body (fst x).

Definition body_member (k : string) (x : Fetched) : option json :=
  match body_of x with
  | JObject ms => member k ms
  | _ => None
  end.

(** How the [try] block ends for what [fetch] settled to: with the parsed
    data, or with what is thrown into the [catch] block. *)
Definition settled (r : Thrown + Response.t) : Thrown + ChatResponse.t :=
  match r with
  | inl rejected => inl rejected
  | inr response =>
      if Response.ok response then Response.json response
      else inl (ErrorObject
                  (JsString.lit "Server error: "
                   ++ JsString.ofNumber (Z.of_N (Response.status response))))
  end.

(** The transport or generation path failed: the [fetch] rejects, or the
    status of the response is not ok. *)
Definition failed (r : Thrown + Response.t) : Prop :=
  match r with
  | inl _ => True
  | inr response => Response.ok response = false
  end.

Definition errorMessage_of (err : Thrown) : jsstring :=
  match err with
  | ErrorObject message => message
  | NotAnError => JsString.lit "Failed to send message"
  end.

Definition error_text (errorMessage : jsstring) : jsstring :=
  warning_sign ++ JsString.lit " " ++ errorMessage
  ++ JsString.lit ". Make sure the backend is running at " ++ API_URL.

(** The world in which a call that did send its request returns. *)
Definition world_after {E} (closed_over : option jsstring) (content : jsstring)
    (topK : option Z) (w : World E) : World E :=
  let request := chat_request closed_over content topK in
  let '(r, n) := transport E (net w) request in
  let t := tick w in
  let userMessage :=
    Message.mk (randomUUID E t) user (JsString.trim content) None
               (now E (S t)) in
  let reply :=
    match settled r with
    | inr data =>
        Message.mk (randomUUID E (S (S t))) assistant (ChatResponse.answer data)
                   (Some (ChatResponse.sources data)) (now E (S (S (S t))))
    | inl err =>
        Message.mk (randomUUID E (S (S t))) assistant
                   (error_text (errorMessage_of err)) None
                   (now E (S (S (S t))))
    end in
  {| hook :=
       {| messages := messages (hook w) ++ [userMessage; reply];
          isLoading := false;
          sessionId :=
            match settled r with
            | inr data => Some (ChatResponse.session_id data)
            | inl _ => sessionId (hook w)
            end;
          error :=
            match settled r with
            | inr _ => None
            | inl err => Some (errorMessage_of err)
            end |};
     net := n;
     trace := trace w ++ [(request, r)];
     tick := S (S (S (S t))) |}.


(** ** Concrete worlds to run the model in *)

Definition uuid_of_tick (n : nat) : jsstring :=
  JsString.lit "uuid-" ++ JsString.ofNumber (Z.of_nat n).

Definition clock_of_tick (n : nat) : Z := 1700000000000 + Z.of_nat n.

(** No backend is running: every [fetch] rejects. *)
Definition offline : Env :=
  {| Net := unit;
     transport := fun _ _ => (inl Backend.Failed_to_fetch, tt);
     randomUUID := uuid_of_tick;
     now := clock_of_tick |}.

Definition offline_world : World offline :=
  {| hook := initialState; net := (tt : Net offline); trace := []; tick := 0 |}.

(** A backend whose pipeline always answers the same. *)
Definition demo_pipeline (question : jsstring)
    (history : list SessionStore.Turn) (top_k : Z) : jsstring * list Source.t :=
  (JsString.lit "MSFT and AAPL",
   [Source.mk (JsString.lit "holdings.csv") 2;
    Source.mk (JsString.lit "holdings.csv") 0]).

Definition online : Env :=
  Backend.env demo_pipeline uuid_of_tick clock_of_tick.

Definition online_world (faults : list Backend.Fault) : World online :=
  {| hook := initialState;
     net := ({| Backend.sessions := ∅; Backend.faults := faults |} : Net online);
     trace := []; tick := 0 |}.

(** [   ], [hello] and [  hello ] *)
Definition blanks : jsstring := [32; 9; 160].
Definition hello : jsstring := JsString.lit "hello".
Definition padded_hello : jsstring := [32; 32] ++ hello ++ [10].

Definition demo_data : ChatResponse.t :=
  ChatResponse.mk (SessionStore.new_id ∅) (JsString.lit "MSFT and AAPL")
    [Source.mk (JsString.lit "holdings.csv") 2;
     Source.mk (JsString.lit "holdings.csv") 0].

Definition question (n : nat) : SessionStore.Turn :=
  SessionStore.Build_Turn user (JsString.lit "q" ++ JsString.ofNumber (Z.of_nat n)) None.

Definition reply (n : nat) : SessionStore.Turn :=
  SessionStore.Build_Turn assistant (JsString.lit "a" ++ JsString.ofNumber (Z.of_nat n))
    (Some []).

(** Five exchanges: a history of [MAX_HISTORY] turns. *)
Definition full_history : list SessionStore.Turn :=
  flat_map (fun n => [question n; reply n]) (seq 0 5).

(** ** The call at its [await]

    An async function runs up to its first [await] in the event that
    called it; React then renders, and the rest runs when the promise of
    [fetch] has settled.  The two halves of [sendMessage]: *)

#[local] Existing Instance M_ret.
#[local] Existing Instance M_bind.

Section Await.
Context (E : Env).

(** Lines 15 to 24: what has happened when the call is suspended. *)
Definition sendMessage_pending (content : jsstring) : M E unit :=
  id ← crypto_randomUUID E;
  timestamp ← new_Date E;
  let userMessage :=
    Message.mk id user (JsString.trim content) None timestamp in
  setMessages E (fun prev => prev ++ [userMessage]);;
  setIsLoading E true;;
  setError E None.

(** Lines 26 to 70: the [try] statement, from the settling of [fetch]. *)
Definition sendMessage_resume (sessionId : option jsstring)
    (content : jsstring) (topK : option Z) : M E unit :=
  let topK := default 5%Z topK in
  try_catch_finally E
    (response ← fetch E (API_URL ++ JsString.lit "/chat")
       {| RequestInit.method := JsString.lit "POST";
          RequestInit.headers :=
            [(JsString.lit "Content-Type", JsString.lit "application/json")];
          RequestInit.body :=
            JObject [("session_id", nullable sessionId);
                     ("message", JString (JsString.trim content));
                     ("top_k", JNumber topK)]%string |};
     if negb (Response.ok response) then
       throw E (ErrorObject
                  (JsString.lit "Server error: "
                   ++ JsString.ofNumber (Z.of_N (Response.status response))))
     else
       data ← Response_json E response;
       setSessionId E (Some (ChatResponse.session_id data));;
       id ← crypto_randomUUID E;
       timestamp ← new_Date E;
       let assistantMessage :=
         Message.mk id assistant (ChatResponse.answer data)
                    (Some (ChatResponse.sources data)) timestamp in
       setMessages E (fun prev => prev ++ [assistantMessage]))
    (fun err =>
       let errorMessage :=
         match err with
         | ErrorObject message => message
         | NotAnError => JsString.lit "Failed to send message"
         end in
       setError E (Some errorMessage);;
       id ← crypto_randomUUID E;
       timestamp ← new_Date E;
       let errorResponse :=
         Message.mk id assistant
           (warning_sign ++ JsString.lit " " ++ errorMessage
            ++ JsString.lit ". Make sure the backend is running at "
            ++ API_URL)
           None timestamp in
       setMessages E (fun prev => prev ++ [errorResponse]))
    (setIsLoading E false).

(** ** ChatInput, the rest *)

(** The [disabled] attribute of the send button. *)
Definition send_disabled (input : jsstring) (isLoading : bool) : bool :=
  negb (JsString.truthy (JsString.trim input)) || isLoading.

Record KeyboardEvent := {
  key : jsstring;
  shiftKey : bool
}.

(** [handleKeyDown]: the new value of [input], and whether
    [preventDefault] was called on the event. *)
Definition handleKeyDown (e : KeyboardEvent) (input : jsstring)
    (isLoading : bool) (onSend : jsstring -> M E unit) : M E (jsstring * bool) :=
  if bool_decide (key e = JsString.lit "Enter") && negb (shiftKey e) then
    input' ← handleSubmit E input isLoading onSend;
    mret (input', true)
  else mret (input, false).

End Await.

(** [s.includes(pat)] *)
Fixpoint includes (pat s : jsstring) : bool :=
  JsString.startsWith pat s
  || match s with
     | [] => false
     | _ :: s' => includes pat s'
     end.

(** ** ChatHeader *)

(** The line under the title: the first eight code units of a session id
    that is not falsy, else the invitation. *)
Definition ChatHeader (sessionId : option jsstring) : jsstring :=
  match sessionId with
  | Some ((_ :: _) as id) =>
      JsString.lit "Session: " ++ take 8 id ++ JsString.lit "..."
  | _ => JsString.lit "Ask questions about holdings & trades"
  end.

(** ** EmptyState *)

(** The [text] of the four suggestions, in order. *)
Definition suggestions : list jsstring :=
  [JsString.lit "What are my top 5 holdings by value?";
   JsString.lit "Show total PnL from recent trades";
   JsString.lit "What's my net position in AAPL?";
   JsString.lit "Find all trades over $10,000"].

(** ** ChatMessage and ChatContainer *)

(** A chat bubble: its React key, the side it is on, its text and its
    badges.  (The time of day under it depends on the locale and is left
    out.) *)
Record Bubble := {
  bubble_key : jsstring;
  isUser : bool;
  bubble_text : jsstring;
  badges : list Badge
}.

Definition ChatMessage (message : Message.t) : Bubble :=
  {| bubble_key := Message.id message;
     isUser := match Message.role message with user => true | assistant => false end;
     bubble_text := ChatMessage_text message;
     badges := ChatMessage_sources message |}.

(** The scrolling area: the empty state with one button per suggestion, or
    the bubbles, followed by the typing indicator while loading. *)
Inductive Pane :=
| EmptyState (buttons : list jsstring)
| Bubbles (bubbles : list Bubble) (typingIndicator : bool).

(** What [ChatContainer] renders from the hook's cells; [input_isLoading]
    is the [isLoading] prop of the input box. *)
Record Screen := {
  header : jsstring;
  pane : Pane;
  input_isLoading : bool
}.

Definition ChatContainer (s : HookState) : Screen :=
  {| header := ChatHeader (sessionId s);
     pane := if Nat.eqb (length (messages s)) 0
             then EmptyState suggestions
             else Bubbles (map ChatMessage (messages s)) (isLoading s);
     input_isLoading := isLoading s |}.

(** ** What the user can do *)

Inductive Action :=
| Send (content : jsstring) (topK : option Z)
| Clear.

Definition act {E} (a : Action) (w : World E) : World E :=
  match a with
  | Send content topK => snd (call_sendMessage E content topK w)
  | Clear => snd (call_clearChat E w)
  end.

Definition run {E} (actions : list Action) (w : World E) : World E :=
  foldl (fun w a => act a w) w actions.

Definition sendable (call : jsstring * option Z) : bool :=
  JsString.truthy (JsString.trim (fst call)).

(** A list of turns made of exchanges: a user turn, then an assistant turn. *)
Fixpoint alternates (turns : list Message.t) : bool :=
  match turns with
  | [] => true
  | u :: rest =>
      match rest with
      | [] => false
      | a :: rest' =>
          match Message.role u, Message.role a with
          | user, assistant => alternates rest'
          | _, _ => false
          end
      end
  end.

(** The request every call makes: [POST /chat] on [API_URL], as JSON. *)
Definition to_chat_endpoint (x : Fetched) : Prop :=
  fst (fst x) = JsString.lit "http://localhost:8000/chat"
  /\ RequestInit.method (snd (fst x)) = JsString.lit "POST"
  /\ RequestInit.headers (snd (fst x))
     = [(JsString.lit "Content-Type", JsString.lit "application/json")].

(** Every id of the list was drawn at a tick before [n]. *)
Definition ids_below (E : Env) (n : nat) (l : list Message.t) : Prop :=
  Forall (fun m => exists k, (k < n)%nat /\ Message.id m = randomUUID E k) l.

(** A world in which [randomUUID] never repeats itself. *)
Definition counting : Env :=
  {| Net := unit;
     transport := fun _ _ =>
       (inr (Response.mk 503 (inl (ErrorObject (JsString.lit "no body")))), tt);
     randomUUID := fun n => [N.of_nat n];
     now := clock_of_tick |}.

Definition counting_world : World counting :=
  {| hook := initialState; net := (tt : Net counting); trace := []; tick := 0 |}.

(** ** The response as it arrives

    [response.json()] gives whatever JSON the body holds; the annotation
    [ChatResponse] on [data] checks nothing at run time. *)

(** An element of [sources] as the interface [Source] has it. *)
Definition isSource (v : json) : bool :=
  match v with
  | JObject ms =>
      forallb (fun k => bool_decide (k ∈ ["file"; "row_index"]%string)) (keys ms)
      && required isString (member "file" ms)
      && required isInteger (member "row_index" ms)
  | _ => false
  end.

Definition isSources (v : json) : bool :=
  match v with
  | JArray items => forallb isSource items
  | _ => false
  end.

(** The interface [ChatResponse] read as a predicate on a JSON value:
    [{ session_id: string; answer: string; sources: Source[] }]. *)
Definition isChatResponse (v : json) : bool :=
  match v with
  | JObject ms =>
      forallb (fun k => bool_decide (k ∈ ["session_id"; "answer"; "sources"]%string))
              (keys ms)
      && required isString (member "session_id" ms)
      && required isString (member "answer" ms)
      && required isSources (member "sources" ms)
  | _ => false
  end.

(** What lines 45 to 51 read off [data]: the three properties, each
    [undefined] ([None]) when [data] has no such member; reading a property
    of [null] throws a [TypeError]. *)
Inductive Read :=
| TypeError
| Fields (session_id answer sources : option json).

Definition read_data (data : json) : Read :=
  match data with
  | JNull => TypeError
  | JObject ms =>
      Fields (member "session_id" ms) (member "answer" ms) (member "sources" ms)
  | _ => Fields None None None
  end.

(** The JSON value that is a given [Source], a given [ChatResponse]. *)
Definition Source_toJSON (source : Source.t) : json :=
  JObject [("file", JString (Source.file source));
           ("row_index", JNumber (Source.row_index source))]%string.

Definition ChatResponse_toJSON (data : ChatResponse.t) : json :=
  JObject [("session_id", JString (ChatResponse.session_id data));
           ("answer", JString (ChatResponse.answer data));
           ("sources", JArray (map Source_toJSON (ChatResponse.sources data)))]%string.

(** ** The second half of a call, spelled out *)

(** The world in which [sendMessage_resume] returns. *)
Definition world_resumed {E} (closed_over : option jsstring)
    (content : jsstring) (topK : option Z) (w : World E) : World E :=
  let request := chat_request closed_over content topK in
  let '(r, n) := transport E (net w) request in
  let t := tick w in
  let reply :=
    match settled r with
    | inr data =>
        Message.mk (randomUUID E t) assistant (ChatResponse.answer data)
                   (Some (ChatResponse.sources data)) (now E (S t))
    | inl err =>
        Message.mk (randomUUID E t) assistant
                   (error_text (errorMessage_of err)) None (now E (S t))
    end in
  {| hook :=
       {| messages := messages (hook w) ++ [reply];
          isLoading := false;
          sessionId :=
            match settled r with
            | inr data => Some (ChatResponse.session_id data)
            | inl _ => sessionId (hook w)
            end;
          error :=
            match settled r with
            | inr _ => error (hook w)
            | inl err => Some (errorMessage_of err)
            end |};
     net := n;
     trace := trace w ++ [(request, r)];
     tick := S (S t) |}.

(** ** The page and its events

    Calls that overlap: the page is the world together with the calls that
    have been started and whose [fetch] has not settled yet, each with the
    arguments and the session id it closed over.  React renders between
    two events, so every event meets the callbacks of the current cells. *)

Record Awaiting := {
  awaiting_sessionId : option jsstring;
  awaiting_content : jsstring;
  awaiting_topK : option Z
}.

Record Page (E : Env) := {
  world : World E;
  awaiting : list Awaiting
}.

Arguments world {E} _.
Arguments awaiting {E} _.

Inductive Event :=
| Submit (input : jsstring)   (* the send button, or Enter in the input box *)
| Suggest (i : nat)           (* a click on the suggestion button number [i] *)
| ClearChat                   (* a click on the bin of the header *)
| Settle (k : nat).           (* the [fetch] of the awaiting call number [k] settles *)

(** [sendMessage(content)] called from an event: it runs up to its
    [await] and is then suspended; with a blank [content] it returns at
    once. *)
Definition begin {E} (content : jsstring) (topK : option Z) (pg : Page E)
    : Page E :=
  if JsString.truthy (JsString.trim content) then
    {| world := snd (sendMessage_pending E content (world pg));
       awaiting := awaiting pg
                   ++ [{| awaiting_sessionId := sessionId (hook (world pg));
                          awaiting_content := content;
                          awaiting_topK := topK |}] |}
  else pg.

(** One event on the page that [ChatContainer] renders: [handleSubmit]
    under its guard, a suggestion button if the empty state is shown,
    [clearChat], or the rest of a suspended call. *)
Definition step {E} (pg : Page E) (e : Event) : Page E :=
  let screen := ChatContainer (hook (world pg)) in
  match e with
  | Submit input =>
      if send_disabled input (input_isLoading screen) then pg
      else begin input None pg
  | Suggest i =>
      match pane screen with
      | EmptyState buttons =>
          match buttons !! i with
          | Some text => begin text None pg
          | None => pg
          end
      | Bubbles _ _ => pg
      end
  | ClearChat =>
      {| world := snd (call_clearChat E (world pg)); awaiting := awaiting pg |}
  | Settle k =>
      match awaiting pg !! k with
      | Some call =>
          {| world := snd (sendMessage_resume E (awaiting_sessionId call)
                             (awaiting_content call) (awaiting_topK call)
                             (world pg));
             awaiting := delete k (awaiting pg) |}
      | None => pg
      end
  end.

Definition is_clear (e : Event) : bool :=
  match e with ClearChat => true | _ => false end.

(** No call awaits, the list is made of exchanges and the hook is not
    loading. *)
Definition at_rest {E} (pg : Page E) : Prop :=
  awaiting pg = []
  /\ alternates (messages (hook (world pg))) = true
  /\ isLoading (hook (world pg)) = false.

(** One call awaits: the list is made of exchanges followed by the user
    turn of that call, and the hook is loading. *)
Definition one_awaiting {E} (pg : Page E) : Prop :=
  exists call turns u,
    awaiting pg = [call]
    /\ messages (hook (world pg)) = turns ++ [u]
    /\ alternates turns = true
    /\ Message.role u = user
    /\ isLoading (hook (world pg)) = true.

(** The page as it is first shown, and three messages on it. *)
Definition offline_page : Page offline :=
  {| world := offline_world; awaiting := [] |}.

Definition busy_afternoon : list Event :=
  [Suggest 0; Submit hello; Suggest 1; Settle 3; Settle 0;
   Submit blanks; Submit padded_hello; Submit hello; Settle 0;
   Suggest 2; Submit hello].

(** ** A reset while a call awaits, against the demo backend *)




(** * Theorems *)

(** ** Strings *)

Lemma trimStart_blank s :
  forallb JsString.isWhiteSpace s = true -> JsString.trimStart s = [].
Proof.
  induction s as [|c s IH]; simpl; [done|].
  destruct (JsString.isWhiteSpace c); simpl; [exact IH | discriminate].
Qed.

Lemma trimStart_forallb s :
  JsString.trimStart s = [] -> forallb JsString.isWhiteSpace s = true.
Proof.
  induction s as [|c s IH]; simpl; [done|].
  destruct (JsString.isWhiteSpace c); simpl; [exact IH | discriminate].
Qed.

Lemma trimStart_head s c s' :
  JsString.trimStart s = c :: s' -> JsString.isWhiteSpace c = false.
Proof.
  induction s as [|d s IH]; simpl; [discriminate|].
  destruct (JsString.isWhiteSpace d) eqn:Hd; [exact IH|].
  intros [= -> _]. exact Hd.
Qed.

Lemma trimStart_snoc l c :
  JsString.isWhiteSpace c = false -> JsString.trimStart (l ++ [c]) <> [].
Proof.
  intros Hc. induction l as [|d l IH]; simpl.
  - rewrite Hc. discriminate.
  - destruct (JsString.isWhiteSpace d); [exact IH | discriminate].
Qed.

(** [trim] leaves nothing exactly when every character is white space. *)
Lemma trim_nil_iff s :
  JsString.trim s = [] <-> forallb JsString.isWhiteSpace s = true.
Proof.
  unfold JsString.trim, JsString.trimEnd. split.
  - intros H. apply trimStart_forallb.
    destruct (JsString.trimStart s) as [|c s'] eqn:Hs; [reflexivity|].
    exfalso. apply (f_equal (@rev N)) in H. rewrite rev_involutive in H.
    simpl in H. revert H. apply trimStart_snoc.
    exact (trimStart_head _ _ _ Hs).
  - intros H. rewrite (trimStart_blank s H). reflexivity.
Qed.

Lemma truthy_trim s :
  JsString.truthy (JsString.trim s) = false <-> JsString.trim s = [].
Proof. destruct (JsString.trim s); simpl; split; congruence. Qed.

(** ** The monad's laws at work in [sendMessage] *)

Section Calls.
Context (E : Env).

Lemma sendMessage_blank closed_over content topK (w : World E) :
  JsString.trim content = [] ->
  sendMessage E closed_over content topK w = (inr tt, w).
Proof. intros H. unfold sendMessage. rewrite H. reflexivity. Qed.

Lemma sendMessage_sent closed_over content topK (w : World E) :
  JsString.trim content <> [] ->
  sendMessage E closed_over content topK w
  = (inr tt, world_after closed_over content topK w).
Proof.
  intros H. unfold sendMessage, world_after, chat_request.
  destruct (JsString.trim content) as [|c s] eqn:Ht; [done|].
  cbn [JsString.truthy negb].
  unfold mbind, M_bind, bind, try_catch_finally, fetch, settled. cbn.
  destruct (transport E (net w) _) as [r n]. cbn.
  destruct r as [e|response]; cbn.
  - rewrite <- app_assoc. reflexivity.
  - destruct (Response.ok response); cbn.
    + destruct (Response.json response) as [e|data]; cbn;
        rewrite <- app_assoc; reflexivity.
    + rewrite <- app_assoc. reflexivity.
Qed.

End Calls.

Section CallFacts.
Context (E : Env).
Implicit Types (w : World E) (x : Fetched).

(** A call that put an exchange on the trace had something to send, and
    the exchange is its request with what the network made of it. *)
Lemma sent_inv closed_over content topK w x :
  trace (snd (sendMessage E closed_over content topK w)) = trace w ++ [x] ->
  JsString.trim content <> []
  /\ x = (chat_request closed_over content topK,
          fst (transport E (net w) (chat_request closed_over content topK))).
Proof.
  intros H. destruct (JsString.trim content) as [|c s] eqn:Ht.
  - rewrite sendMessage_blank in H by exact Ht. simpl in H.
    apply (f_equal length) in H. rewrite length_app in H. simpl in H. lia.
  - split; [discriminate|].
    rewrite sendMessage_sent in H by (rewrite Ht; discriminate).
    unfold world_after in H.
    destruct (transport E (net w) _) as [r n]. simpl in H.
    apply app_inv_head in H. injection H as <-. reflexivity.
Qed.

Lemma trace_after closed_over content topK w :
  trace (world_after closed_over content topK w)
  = trace w ++ [(chat_request closed_over content topK,
                 fst (transport E (net w)
                        (chat_request closed_over content topK)))].
Proof.
  unfold world_after. destruct (transport E (net w) _) as [r n]. reflexivity.
Qed.

Lemma failed_settled r : failed r -> exists err, settled r = inl err.
Proof.
  destruct r as [e|response]; simpl; [eauto|].
  intros ->. eauto.
Qed.

Lemma sendMessage_returns closed_over content topK w :
  fst (sendMessage E closed_over content topK w) = inr tt.
Proof.
  destruct (JsString.trim content) as [|c s] eqn:Ht.
  - rewrite sendMessage_blank by exact Ht. reflexivity.
  - rewrite sendMessage_sent by (rewrite Ht; discriminate). reflexivity.
Qed.

End CallFacts.

Section Outcome.
Context (E : Env).
Implicit Types (w : World E) (x : Fetched).

(** The hook state a call leaves behind once its request was sent, by
    what the [try] block ended with. *)
Lemma hook_after closed_over content topK w :
  let w' := world_after closed_over content topK w in
  let r := fst (transport E (net w) (chat_request closed_over content topK)) in
  exists u a,
    messages (hook w') = messages (hook w) ++ [u; a]
    /\ Message.role u = user
    /\ Message.content u = JsString.trim content
    /\ Message.sources u = None
    /\ Message.role a = assistant
    /\ isLoading (hook w') = false
    /\ match settled r with
       | inr data =>
           Message.content a = ChatResponse.answer data
           /\ Message.sources a = Some (ChatResponse.sources data)
           /\ sessionId (hook w') = Some (ChatResponse.session_id data)
           /\ error (hook w') = None
       | inl err =>
           Message.content a = error_text (errorMessage_of err)
           /\ Message.sources a = None
           /\ sessionId (hook w') = sessionId (hook w)
           /\ error (hook w') = Some (errorMessage_of err)
       end.
Proof.
  unfold world_after.
  destruct (transport E (net w) _) as [r n]. cbn [fst].
  destruct (settled r) as [err|data]; cbn;
    eexists _, _; repeat split; reflexivity.
Qed.

Lemma error_text_not_empty errorMessage : error_text errorMessage <> [].
Proof. unfold error_text, warning_sign. discriminate. Qed.

End Outcome.

(** ** The claims about the client *)

(** C9.  When the input is empty or all white space, [sendMessage] does
    nothing at all: it returns in the world it was called in, so no request
    went out and [messages], [sessionId], [isLoading] and [error] are what
    they were.  For any other input the user turn that is appended, and the
    [message] that is sent, is the trimmed input.  [handleSubmit] of the
    input box does not even call [onSend] for a blank input. *)
Theorem blank_input_is_a_no_op (E : Env) closed_over content topK (w : World E) :
  (forallb JsString.isWhiteSpace content = true ->
   sendMessage E closed_over content topK w = (inr tt, w))
  /\ (forallb JsString.isWhiteSpace content = false ->
      let w' := snd (sendMessage E closed_over content topK w) in
      exists u a x,
        messages (hook w') = messages (hook w) ++ [u; a]
        /\ Message.role u = user
        /\ Message.content u = JsString.trim content
        /\ trace w' = trace w ++ [x]
        /\ body_member "message" x = Some (JString (JsString.trim content)))
  /\ (forall loading onSend,
      forallb JsString.isWhiteSpace content = true ->
      handleSubmit E content loading onSend w = (inr content, w)).
Proof.
  split; [|split].
  - intros H. apply sendMessage_blank, trim_nil_iff, H.
  - intros H.
    assert (Ht : JsString.trim content <> []).
    { intros Hn. apply trim_nil_iff in Hn. congruence. }
    rewrite (sendMessage_sent E closed_over content topK w Ht). cbn [snd].
    destruct (hook_after E closed_over content topK w)
      as (u & a & Hm & Hu & Hc & _).
    exists u, a, (chat_request closed_over content topK,
                  fst (transport E (net w) (chat_request closed_over content topK))).
    repeat split; try assumption. apply trace_after.
  - intros loading onSend H. apply trim_nil_iff in H.
    unfold handleSubmit. rewrite H. reflexivity.
Qed.

Lemma blank_input_is_a_no_op_witness :
  sendMessage offline None blanks None offline_world = (inr tt, offline_world)
  /\ exists u a x,
       messages (hook (snd (sendMessage offline None padded_hello None offline_world)))
       = messages (hook offline_world) ++ [u; a]
       /\ Message.role u = user
       /\ Message.content u = JsString.trim padded_hello
       /\ trace (snd (sendMessage offline None padded_hello None offline_world))
          = trace offline_world ++ [x]
       /\ body_member "message" x = Some (JString (JsString.trim padded_hello)).
Proof.
  split.
  - apply (proj1 (blank_input_is_a_no_op offline None blanks None offline_world)).
    reflexivity.
  - apply (proj1 (proj2 (blank_input_is_a_no_op offline None padded_hello None
                           offline_world))).
    reflexivity.
Defined.

(** C2.  No call of [sendMessage] lets an exception out: it always returns
    normally.  When its [fetch] rejected, or the response was not ok, the
    turn it appended last is an assistant message whose text is the warning
    sign, a space, the error message and the hint about the backend, so the
    text on display is not the empty string. *)
Theorem failure_still_answers (E : Env) closed_over content topK (w : World E) :
  let w' := snd (sendMessage E closed_over content topK w) in
  fst (sendMessage E closed_over content topK w) = inr tt
  /\ forall x,
       trace w' = trace w ++ [x] ->
       failed (snd x) ->
       exists u a err,
         messages (hook w') = messages (hook w) ++ [u; a]
         /\ Message.role a = assistant
         /\ settled (snd x) = inl err
         /\ Message.content a
            = warning_sign ++ JsString.lit " " ++ errorMessage_of err
              ++ JsString.lit ". Make sure the backend is running at "
              ++ API_URL
         /\ ChatMessage_text a <> [].
Proof.
  cbn zeta. split; [apply sendMessage_returns|].
  intros x Hx Hf.
  destruct (sent_inv E _ _ _ _ _ Hx) as [Ht ->]. cbn [snd] in Hf |- *.
  rewrite (sendMessage_sent E closed_over content topK w Ht). cbn [snd].
  destruct (hook_after E closed_over content topK w)
    as (u & a & Hm & _ & _ & _ & Ha & _ & Hs).
  destruct (failed_settled _ Hf) as [err Herr].
  rewrite Herr in Hs. destruct Hs as (Hc & _).
  exists u, a, err. repeat split; try assumption.
  unfold ChatMessage_text. rewrite Hc. apply error_text_not_empty.
Qed.

Lemma failure_still_answers_witness :
  exists u a err,
    messages (hook (snd (sendMessage offline None hello None offline_world)))
    = messages (hook offline_world) ++ [u; a]
    /\ Message.role a = assistant
    /\ settled (inl Backend.Failed_to_fetch) = inl err
    /\ Message.content a
       = warning_sign ++ JsString.lit " " ++ errorMessage_of err
         ++ JsString.lit ". Make sure the backend is running at " ++ API_URL
    /\ ChatMessage_text a <> [].
Proof.
  apply (proj2 (failure_still_answers offline None hello None offline_world)
               (chat_request None hello None, inl Backend.Failed_to_fetch)).
  - reflexivity.
  - exact I.
Defined.



(** C4.  A call that is given no [topK] sends [top_k] 5, the default
    [TOP_K] of the configuration: every request such a call puts on the
    trace carries it, and a call with something to send puts one there. *)
Theorem default_top_k (E : Env) closed_over content (w : World E) :
  let w' := snd (sendMessage E closed_over content None w) in
  TOP_K = 5%Z
  /\ (forall x, trace w' = trace w ++ [x] ->
                body_member "top_k" x = Some (JNumber TOP_K))
  /\ (JsString.trim content <> [] ->
      exists x, trace w' = trace w ++ [x]
                /\ body_member "top_k" x = Some (JNumber 5)).
Proof.
  cbn zeta. split; [reflexivity|]. split.
  - intros x Hx. destruct (sent_inv E _ _ _ _ _ Hx) as [_ ->]. reflexivity.
  - intros Ht. rewrite (sendMessage_sent E closed_over content None w Ht).
    eexists. split; [apply trace_after | reflexivity].
Qed.

Lemma default_top_k_witness :
  exists x,
    trace (snd (sendMessage offline None hello None offline_world))
    = trace offline_world ++ [x]
    /\ body_member "top_k" x = Some (JNumber 5).
Proof.
  apply (proj2 (proj2 (default_top_k offline None hello offline_world))).
  discriminate.
Defined.

(** C3.  The body of a request always has the three members [session_id],
    [message] and [top_k], with [message] the trimmed input and [top_k] a
    number.  From a hook that holds a session id the body is a
    [ChatRequest].  From a hook that holds none, as in the first call,
    [session_id] is sent as [null], which is neither absent nor a string,
    and the body is not a [ChatRequest]. *)
Theorem first_request_sends_null :
  request_body (chat_request None hello None)
  = JObject [("session_id", JNull);
             ("message", JString hello);
             ("top_k", JNumber 5)]%string
  /\ trace (snd (call_sendMessage offline hello None offline_world))
     = [(chat_request None hello None, inl Backend.Failed_to_fetch)]
  /\ ChatRequest (request_body (chat_request None hello None)) = false
  /\ (forall content topK,
        ChatRequest (request_body (chat_request None content topK)) = false)
  /\ (forall id content topK,
        ChatRequest (request_body (chat_request (Some id) content topK)) = true).
Proof. repeat split; reflexivity. Qed.

(** ** The message list *)

Lemma call_sendMessage_messages (E : Env) content topK (w : World E) :
  messages (hook w)
  `prefix_of` messages (hook (snd (call_sendMessage E content topK w))).
Proof.
  unfold call_sendMessage, useChat. cbn [use_sendMessage].
  destruct (JsString.trim content) as [|c s] eqn:Ht.
  - rewrite sendMessage_blank by exact Ht. reflexivity.
  - rewrite sendMessage_sent by (rewrite Ht; discriminate). cbn [snd].
    destruct (hook_after E (sessionId (hook w)) content topK w)
      as (u & a & -> & _).
    apply prefix_app_r. reflexivity.
Qed.

Lemma send_all_messages (E : Env) calls (w : World E) :
  messages (hook w) `prefix_of` messages (hook (send_all calls w)).
Proof.
  revert w. induction calls as [|[content topK] calls IH]; intros w; simpl.
  - reflexivity.
  - etrans; [apply call_sendMessage_messages | apply IH].
Qed.

(** C6, as the code has it.  A call with something to send appends one
    user turn and then one assistant turn at the end of the list, whether
    the exchange succeeded or not; a call with a blank input appends
    nothing.  Whatever number of calls follow, every turn that was in the
    list stays at its place unchanged; only [clearChat] empties the list. *)
Theorem messages_append_only (E : Env) closed_over content topK (w : World E) :
  let w' := snd (sendMessage E closed_over content topK w) in
  (JsString.trim content <> [] ->
   exists u a,
     messages (hook w') = messages (hook w) ++ [u; a]
     /\ Message.role u = user
     /\ Message.role a = assistant)
  /\ (JsString.trim content = [] -> messages (hook w') = messages (hook w))
  /\ (forall calls i turn,
        messages (hook w) !! i = Some turn ->
        messages (hook (send_all calls w)) !! i = Some turn)
  /\ messages (hook (snd (call_clearChat E w))) = [].
Proof.
  cbn zeta. split; [|split; [|split]].
  - intros Ht. rewrite (sendMessage_sent E closed_over content topK w Ht).
    destruct (hook_after E closed_over content topK w)
      as (u & a & Hm & Hu & _ & _ & Ha & _).
    exists u, a. auto.
  - intros Ht. rewrite sendMessage_blank by exact Ht. reflexivity.
  - intros calls i turn Hi.
    eapply prefix_lookup_Some; [exact Hi | apply send_all_messages].
  - reflexivity.
Qed.

Lemma messages_append_only_witness :
  (exists u a,
     messages (hook (snd (sendMessage offline None hello None offline_world)))
     = messages (hook offline_world) ++ [u; a]
     /\ Message.role u = user
     /\ Message.role a = assistant)
  /\ messages (hook (snd (sendMessage offline None blanks None offline_world)))
     = messages (hook offline_world).
Proof.
  split.
  - apply (proj1 (messages_append_only offline None hello None offline_world)).
    discriminate.
  - apply (proj1 (proj2 (messages_append_only offline None blanks None
                           offline_world))).
    reflexivity.
Defined.

(** C6, as it is worded, fails for a blank input: the call completes and
    no turn has been appended. *)
Lemma blank_call_appends_no_turn :
  fst (sendMessage offline None blanks None offline_world) = inr tt
  /\ ~ exists u a,
         messages (hook (snd (sendMessage offline None blanks None offline_world)))
         = messages (hook offline_world) ++ [u; a].
Proof.
  split; [reflexivity|]. intros (u & a & H). discriminate H.
Qed.

(** ** Rendering of sources *)

Lemma replace_csv_suffix stem :
  46 ∉ stem ->
  JsString.replace (JsString.lit ".csv") [] (stem ++ JsString.lit ".csv") = stem.
Proof.
  change (JsString.lit ".csv") with [46; 99; 115; 118].
  induction stem as [|c stem IH]; intros Hdot.
  - reflexivity.
  - assert (Hc : (46 =? c) = false).
    { apply N.eqb_neq. intros <-. apply Hdot. left. }
    cbn [app JsString.replace JsString.startsWith]. rewrite Hc.
    cbn [andb]. f_equal. apply IH.
    intros Hin. apply Hdot. right. exact Hin.
Qed.

Lemma ChatMessage_sources_map message sources :
  Message.sources message = Some sources ->
  ChatMessage_sources message = map SourceBadge sources.
Proof.
  unfold ChatMessage_sources. intros ->. destruct sources; reflexivity.
Qed.

(** ** The session store *)

Section Store.
Import SessionStore.
Implicit Types (history : list Turn) (turn : Turn) (store : SessionStore.t).

Lemma length_evict cap history :
  length (evict cap history) = (length history `min` cap)%nat.
Proof. unfold evict. rewrite length_drop. lia. Qed.

Lemma evict_suffix cap history :
  history = take (length history - cap) history ++ evict cap history.
Proof. unfold evict. symmetry. apply take_drop. Qed.

Lemma append_turn_room cap history turn :
  (length history < cap)%nat -> append_turn cap history turn = history ++ [turn].
Proof.
  intros H. unfold append_turn, evict. rewrite length_app. simpl.
  replace (length history + 1 - cap)%nat with 0%nat by lia. reflexivity.
Qed.

Lemma append_turn_full cap oldest rest turn :
  length (oldest :: rest) = cap ->
  append_turn cap (oldest :: rest) turn = rest ++ [turn].
Proof.
  intros H. unfold append_turn, evict. rewrite length_app, H. simpl.
  replace (cap + 1 - cap)%nat with 1%nat by lia. reflexivity.
Qed.

Lemma length_foldl_append_turn cap turns history :
  (length history <= cap)%nat ->
  length (foldl (append_turn cap) history turns)
  = ((length history + length turns) `min` cap)%nat.
Proof.
  revert history. induction turns as [|turn turns IH]; intros history H; simpl.
  - lia.
  - rewrite IH.
    + unfold append_turn. rewrite length_evict, length_app. simpl. lia.
    + unfold append_turn. rewrite length_evict. lia.
Qed.



Lemma lookup_append cap store id turn :
  append cap store id turn !! id
  = (fun history => append_turn cap history turn) <$> store !! id.
Proof. unfold append. apply lookup_alter_eq. Qed.

Lemma lookup_append_ne cap store id other turn :
  id <> other ->
  append cap store id turn !! other = store !! other.
Proof. intros H. unfold append. apply lookup_alter_ne, H. Qed.

End Store.

(** C7.  [append] puts the turn at the end of the session's history and
    drops from the front what exceeds the cap, so the history is never
    longer than the cap and what is kept is the tail of the old history
    followed by the new turn, in order.  Below the cap nothing is dropped;
    at the cap exactly the oldest turn is.  The cap counts turns one by
    one, whatever their role: after any number of appends the history
    holds that many turns or the cap, whichever is less.  The configured
    cap is 10. *)
Theorem history_is_capped (cap : nat) (store : SessionStore.t)
    (session_id : jsstring) (history : list SessionStore.Turn)
    (turn : SessionStore.Turn) :
  MAX_HISTORY = 10%nat
  /\ (store !! session_id = Some history ->
      SessionStore.append cap store session_id turn !! session_id
      = Some (SessionStore.append_turn cap history turn))
  /\ (length (SessionStore.append_turn cap history turn) <= cap)%nat
  /\ (exists evicted,
        history ++ [turn]
        = evicted ++ SessionStore.append_turn cap history turn
        /\ length evicted = (length history + 1 - cap)%nat)
  /\ ((length history < cap)%nat ->
      SessionStore.append_turn cap history turn = history ++ [turn])
  /\ (forall oldest rest,
        history = oldest :: rest ->
        length history = cap ->
        SessionStore.append_turn cap history turn = rest ++ [turn])
  /\ (forall turns,
        length (foldl (SessionStore.append_turn cap) [] turns)
        = (length turns `min` cap)%nat).
Proof.
  split; [reflexivity|]. split; [|split; [|split; [|split; [|split]]]].
  - intros H. rewrite lookup_append, H. reflexivity.
  - unfold SessionStore.append_turn. rewrite length_evict. lia.
  - exists (take (length (history ++ [turn]) - cap) (history ++ [turn])).
    split; [apply evict_suffix|].
    rewrite length_take, length_app. simpl. lia.
  - apply append_turn_room.
  - intros oldest rest -> H. apply append_turn_full, H.
  - intros turns. rewrite length_foldl_append_turn; simpl; [reflexivity | lia].
Qed.

Lemma history_is_capped_witness :
  SessionStore.append MAX_HISTORY {[ hello := full_history ]} hello (question 5)
    !! hello
  = Some (SessionStore.append_turn MAX_HISTORY full_history (question 5))
  /\ SessionStore.append_turn MAX_HISTORY full_history (question 5)
     = tail full_history ++ [question 5].
Proof.
  pose proof (history_is_capped MAX_HISTORY {[ hello := full_history ]} hello
                full_history (question 5)) as (_ & Hstore & _ & _ & _ & Hfull & _).
  split.
  - apply Hstore. apply lookup_singleton_eq.
  - apply (Hfull (question 0) (tail full_history)); reflexivity.
Defined.

(** ** The backend *)

Section BackendFacts.
Import SessionStore Backend.
Context (pipeline : jsstring -> list Turn -> Z -> jsstring * list Source.t).
Implicit Types (store : SessionStore.t) (s : State).




End BackendFacts.


Section Conversation.
Import SessionStore Backend.
Context (pipeline : jsstring -> list Turn -> Z -> jsstring * list Source.t)
        (uuid : nat -> jsstring) (clock : nat -> Z).
Let E : Env := Backend.env pipeline uuid clock.
Implicit Types (w : World E) (s : State).





End Conversation.

Section LaterCalls.
Import SessionStore Backend.
Context (pipeline : jsstring -> list Turn -> Z -> jsstring * list Source.t)
        (uuid : nat -> jsstring) (clock : nat -> Z).
Let E : Env := Backend.env pipeline uuid clock.


End LaterCalls.

(** ** The claims about sessions *)



(** * Further properties of the client *)

(** ** Trimming *)

Lemma trimStart_keeps c s' :
  JsString.isWhiteSpace c = false -> JsString.trimStart (c :: s') = c :: s'.
Proof. intros H. simpl. rewrite H. reflexivity. Qed.

Lemma trimStart_idem s :
  JsString.trimStart (JsString.trimStart s) = JsString.trimStart s.
Proof.
  destruct (JsString.trimStart s) as [|c s'] eqn:H; [reflexivity|].
  apply trimStart_keeps, (trimStart_head _ _ _ H).
Qed.

Lemma trimStart_app_last l c :
  JsString.isWhiteSpace c = false ->
  JsString.trimStart (l ++ [c]) = JsString.trimStart l ++ [c].
Proof.
  intros Hc. induction l as [|d l IH]; simpl.
  - rewrite Hc. reflexivity.
  - destruct (JsString.isWhiteSpace d); [exact IH | reflexivity].
Qed.

Lemma trimEnd_cons c s :
  JsString.isWhiteSpace c = false ->
  JsString.trimEnd (c :: s) = c :: JsString.trimEnd s.
Proof.
  intros Hc. unfold JsString.trimEnd. simpl.
  rewrite trimStart_app_last by exact Hc.
  rewrite rev_app_distr. reflexivity.
Qed.

Lemma trimEnd_idem s :
  JsString.trimEnd (JsString.trimEnd s) = JsString.trimEnd s.
Proof.
  unfold JsString.trimEnd. rewrite rev_involutive, trimStart_idem. reflexivity.
Qed.

Lemma trim_idem s : JsString.trim (JsString.trim s) = JsString.trim s.
Proof.
  unfold JsString.trim.
  destruct (JsString.trimStart s) as [|c s'] eqn:H; [reflexivity|].
  pose proof (trimStart_head _ _ _ H) as Hc.
  rewrite (trimEnd_cons c s' Hc), (trimStart_keeps c _ Hc).
  rewrite (trimEnd_cons c _ Hc), trimEnd_idem. reflexivity.
Qed.

Lemma trim_head s c :
  head (JsString.trim s) = Some c -> JsString.isWhiteSpace c = false.
Proof.
  unfold JsString.trim.
  destruct (JsString.trimStart s) as [|d s'] eqn:H; [discriminate|].
  pose proof (trimStart_head _ _ _ H) as Hd.
  rewrite (trimEnd_cons d s' Hd). simpl. congruence.
Qed.

Lemma trimEnd_last s c :
  last (JsString.trimEnd s) = Some c -> JsString.isWhiteSpace c = false.
Proof.
  unfold JsString.trimEnd. intros H.
  destruct (JsString.trimStart (rev s)) as [|d l] eqn:Hl; [discriminate|].
  simpl in H. rewrite last_snoc in H.
  injection H as <-. exact (trimStart_head _ _ _ Hl).
Qed.

Lemma trim_last s c :
  last (JsString.trim s) = Some c -> JsString.isWhiteSpace c = false.
Proof. apply trimEnd_last. Qed.

(** X1.  The user turn that a call appends is never blank and carries no
    white space at either end: its content is not empty, trimming it again
    changes nothing, and its first and its last character are not white
    space. *)
Theorem user_turn_is_trimmed (E : Env) closed_over content topK (w : World E) x :
  let w' := snd (sendMessage E closed_over content topK w) in
  trace w' = trace w ++ [x] ->
  exists u a,
    messages (hook w') = messages (hook w) ++ [u; a]
    /\ Message.role u = user
    /\ Message.content u <> []
    /\ JsString.trim (Message.content u) = Message.content u
    /\ (forall c, head (Message.content u) = Some c ->
                  JsString.isWhiteSpace c = false)
    /\ (forall c, last (Message.content u) = Some c ->
                  JsString.isWhiteSpace c = false)
    /\ body_member "message" x = Some (JString (Message.content u)).
Proof.
  cbn zeta. intros Hx.
  destruct (sent_inv E _ _ _ _ _ Hx) as [Ht ->].
  rewrite (sendMessage_sent E closed_over content topK w Ht). cbn [snd].
  destruct (hook_after E closed_over content topK w)
    as (u & a & Hm & Hu & Hc & _).
  exists u, a. rewrite Hc.
  split; [exact Hm|]. split; [exact Hu|]. split; [exact Ht|].
  split; [apply trim_idem|]. split; [apply trim_head|].
  split; [apply trim_last | reflexivity].
Qed.

Lemma user_turn_is_trimmed_witness :
  exists u a,
    messages (hook (snd (sendMessage offline None padded_hello None offline_world)))
    = messages (hook offline_world) ++ [u; a]
    /\ Message.role u = user
    /\ Message.content u <> []
    /\ JsString.trim (Message.content u) = Message.content u
    /\ (forall c, head (Message.content u) = Some c ->
                  JsString.isWhiteSpace c = false)
    /\ (forall c, last (Message.content u) = Some c ->
                  JsString.isWhiteSpace c = false)
    /\ body_member "message"
         (chat_request None padded_hello None, inl Backend.Failed_to_fetch)
       = Some (JString (Message.content u)).
Proof.
  apply (user_turn_is_trimmed offline None padded_hello None offline_world
           (chat_request None padded_hello None, inl Backend.Failed_to_fetch)).
  reflexivity.
Defined.

(** ** The error cell *)





(** ** The closure *)

(** X4.  The callback handed out by a render sends the session id of that
    render's cells, whatever the cells hold by the time it is called: a
    callback kept from a render without a session goes on sending [null]. *)
Theorem callback_sends_what_it_closed_over (E : Env) (s : HookState)
    content topK (w : World E) x :
  trace (snd (use_sendMessage E (useChat E s) content topK w)) = trace w ++ [x] ->
  body_member "session_id" x = Some (nullable (sessionId s))
  /\ (sessionId s = None -> body_member "session_id" x = Some JNull).
Proof.
  unfold useChat. cbn [use_sendMessage]. intros Hx.
  destruct (sent_inv E _ _ _ _ _ Hx) as [_ ->].
  split; [reflexivity|]. intros Hs. cbn. rewrite Hs. reflexivity.
Qed.

Lemma callback_sends_what_it_closed_over_witness :
  let w := snd (call_sendMessage online hello None (online_world [])) in
  sessionId (hook w) = Some (SessionStore.new_id ∅)
  /\ exists x,
       trace (snd (use_sendMessage online (useChat online initialState)
                     hello None w))
       = trace w ++ [x]
       /\ body_member "session_id" x = Some JNull.
Proof.
  split; [vm_compute; reflexivity|].
  eexists. split; [vm_compute; reflexivity|].
  eapply (proj2 (callback_sends_what_it_closed_over online initialState
                   hello None
                   (snd (call_sendMessage online hello None (online_world [])))
                   _ _)).
  reflexivity.
  Unshelve. vm_compute. reflexivity.
Defined.

(** ** Conversations *)

Lemma call_sendMessage_step (E : Env) content topK (w : World E) :
  snd (call_sendMessage E content topK w)
  = if sendable (content, topK)
    then world_after (sessionId (hook w)) content topK w
    else w.
Proof.
  unfold call_sendMessage, useChat, sendable. cbn [use_sendMessage fst].
  destruct (JsString.trim content) as [|c s] eqn:Ht; cbn [JsString.truthy].
  - rewrite sendMessage_blank by exact Ht. reflexivity.
  - rewrite sendMessage_sent by (rewrite Ht; discriminate). reflexivity.
Qed.

Lemma world_after_ids (E : Env) closed_over content topK (w : World E) :
  let w' := world_after closed_over content topK w in
  exists u a,
    messages (hook w') = messages (hook w) ++ [u; a]
    /\ Message.id u = randomUUID E (tick w)
    /\ Message.id a = randomUUID E (S (S (tick w)))
    /\ tick w' = S (S (S (S (tick w)))).
Proof.
  unfold world_after. destruct (transport E (net w) _) as [r n].
  destruct (settled r); cbn; eexists _, _; repeat split; reflexivity.
Qed.

(** X5.  In a conversation every message that is not blank costs exactly
    one request, whether it succeeds or fails (nothing is retried), and
    adds exactly two turns; blank ones cost nothing.  Every request goes
    to [http://localhost:8000/chat] by [POST] with a JSON content type. *)
Theorem one_request_per_message (E : Env) calls (w : World E) :
  exists later,
    trace (send_all calls w) = trace w ++ later
    /\ length later = length (List.filter sendable calls)
    /\ length (messages (hook (send_all calls w)))
       = (length (messages (hook w))
          + 2 * length (List.filter sendable calls))%nat
    /\ Forall to_chat_endpoint later.
Proof.
  revert w. induction calls as [|[content topK] calls IH]; intros w.
  - exists []. cbn. rewrite app_nil_r. repeat split; [lia | constructor].
  - cbn [send_all List.filter].
    destruct (IH (snd (call_sendMessage E content topK w)))
      as (later & Ht & Hl & Hm & Hf).
    rewrite Ht, Hm, call_sendMessage_step.
    destruct (sendable (content, topK)).
    + exists ((chat_request (sessionId (hook w)) content topK,
               fst (transport E (net w)
                      (chat_request (sessionId (hook w)) content topK)))
              :: later).
      rewrite trace_after.
      destruct (hook_after E (sessionId (hook w)) content topK w)
        as (u & a & -> & _).
      rewrite <- app_assoc. split; [reflexivity|].
      split; [cbn; lia|]. split.
      * rewrite length_app. cbn. lia.
      * constructor; [repeat split | exact Hf].
    + exists later. repeat split; assumption.
Qed.

Lemma alternates_app l u a :
  alternates l = true ->
  Message.role u = user ->
  Message.role a = assistant ->
  alternates (l ++ [u; a]) = true.
Proof.
  intros Hl Hu Ha.
  assert (H : forall n l, (length l <= n)%nat -> alternates l = true ->
                          alternates (l ++ [u; a]) = true).
  { clear l Hl. induction n as [|n IH]; intros l Hn Hl.
    - destruct l; [|cbn in Hn; lia]. cbn. rewrite Hu, Ha. reflexivity.
    - destruct l as [|u' [|a' l]]; cbn in Hl |- *.
      + rewrite Hu, Ha. reflexivity.
      + discriminate.
      + destruct (Message.role u'); [|discriminate].
        destruct (Message.role a'); [discriminate|].
        apply IH; [cbn in Hn; lia | exact Hl]. }
  exact (H (length l) l (le_n _) Hl).
Qed.

Lemma alternates_last l m :
  alternates l = true -> last l = Some m -> Message.role m = assistant.
Proof.
  assert (H : forall n l, (length l <= n)%nat -> alternates l = true ->
                          last l = Some m -> Message.role m = assistant).
  { induction n as [|n IH]; intros k Hn Hk Hlast.
    - destruct k; [discriminate | cbn in Hn; lia].
    - destruct k as [|u' [|a' k]]; cbn in Hk; try discriminate.
      destruct (Message.role u'); [|discriminate].
      destruct (Message.role a') eqn:Ha; [discriminate|].
      destruct k as [|b k].
      + cbn in Hlast. injection Hlast as <-. exact Ha.
      + apply (IH (b :: k)); [cbn in Hn |- *; lia | exact Hk | exact Hlast]. }
  intros Hl. exact (H (length l) l (le_n _) Hl).
Qed.

(** ** Keys *)

Lemma act_keeps_ids (E : Env) a (w : World E) :
  (forall i j, randomUUID E i = randomUUID E j -> i = j) ->
  NoDup (map Message.id (messages (hook w))) ->
  ids_below E (tick w) (messages (hook w)) ->
  NoDup (map Message.id (messages (hook (act a w))))
  /\ ids_below E (tick (act a w)) (messages (hook (act a w))).
Proof.
  intros Hinj Hnd Hb. destruct a as [content topK|]; cbn [act].
  - rewrite call_sendMessage_step. destruct (sendable _); [|auto].
    destruct (world_after_ids E (sessionId (hook w)) content topK w)
      as (u & a & -> & Hu & Ha & ->).
    assert (Hfresh : forall k, (tick w <= k)%nat ->
                     randomUUID E k ∉ map Message.id (messages (hook w))).
    { intros k Hk Hin. apply list_elem_of_fmap in Hin as (m & Hid & Hm).
      unfold ids_below in Hb. rewrite Forall_forall in Hb.
      destruct (Hb m Hm) as (j & Hj & Hmj).
      rewrite Hmj in Hid. apply Hinj in Hid. lia. }
    split.
    + rewrite map_app. apply NoDup_app. split; [exact Hnd|]. split.
      * intros i Hi Hi'. cbn in Hi'. rewrite Hu, Ha in Hi'.
        apply list_elem_of_In in Hi'. cbn in Hi'.
        destruct Hi' as [<-|[<-|[]]]; revert Hi; apply Hfresh; lia.
      * cbn. rewrite Hu, Ha. apply NoDup_cons. split.
        -- intros Hin. apply list_elem_of_singleton in Hin.
           apply Hinj in Hin. lia.
        -- apply NoDup_singleton.
    + unfold ids_below in *. apply Forall_app. split.
      * eapply Forall_impl; [exact Hb|]. cbn.
        intros m (k & Hk & Hm). exists k. split; [lia | exact Hm].
      * repeat constructor.
        -- exists (tick w). split; [lia | exact Hu].
        -- exists (S (S (tick w))). split; [lia | exact Ha].
  - split; [constructor | constructor].
Qed.

(** X7.  Every turn gets an id of its own from [crypto.randomUUID].  As
    long as that never returns the same id twice, the turns of the list,
    and with them the React keys of the bubbles, are pairwise distinct
    after any sequence of sends and clears from an empty list. *)
Theorem message_ids_are_distinct (E : Env) actions (w : World E) :
  (forall i j, randomUUID E i = randomUUID E j -> i = j) ->
  messages (hook w) = [] ->
  NoDup (map Message.id (messages (hook (run actions w))))
  /\ NoDup (map bubble_key (map ChatMessage (messages (hook (run actions w))))).
Proof.
  intros Hinj Hnil.
  assert (H : forall actions (w : World E),
            NoDup (map Message.id (messages (hook w))) ->
            ids_below E (tick w) (messages (hook w)) ->
            NoDup (map Message.id (messages (hook (run actions w))))).
  { clear w Hnil actions.
    induction actions as [|a actions IH]; intros w Hnd Hb; [exact Hnd|].
    cbn [run foldl]. destruct (act_keeps_ids E a w Hinj Hnd Hb) as [Hnd' Hb'].
    apply (IH (act a w) Hnd' Hb'). }
  assert (Hids : NoDup (map Message.id (messages (hook (run actions w))))).
  { apply H; rewrite Hnil; constructor. }
  split; [exact Hids|].
  rewrite map_map. exact Hids.
Qed.

Lemma message_ids_are_distinct_witness :
  let w := run [Send hello None; Clear; Send padded_hello None; Send hello None]
               counting_world in
  NoDup (map Message.id (messages (hook w)))
  /\ NoDup (map bubble_key (map ChatMessage (messages (hook w)))).
Proof.
  apply (message_ids_are_distinct counting
           [Send hello None; Clear; Send padded_hello None; Send hello None]
           counting_world).
  - intros i j [= H]. apply Nat2N.inj, H.
  - reflexivity.
Defined.

(** ** While the call awaits *)

Lemma sendMessage_splits (E : Env) closed_over content topK (w : World E) :
  JsString.trim content <> [] ->
  sendMessage E closed_over content topK w
  = sendMessage_resume E closed_over content topK
      (snd (sendMessage_pending E content w)).
Proof.
  intros Ht. unfold sendMessage, sendMessage_resume, sendMessage_pending.
  destruct (JsString.trim content) as [|c s]; [done|]. reflexivity.
Qed.

Lemma pending_hook (E : Env) content (w : World E) :
  hook (snd (sendMessage_pending E content w))
  = {| messages := messages (hook w)
                   ++ [Message.mk (randomUUID E (tick w)) user
                         (JsString.trim content) None (now E (S (tick w)))];
       isLoading := true;
       sessionId := sessionId (hook w);
       error := None |}.
Proof. reflexivity. Qed.

Lemma handleSubmit_disabled (E : Env) input loading onSend (w : World E) :
  send_disabled input loading = true ->
  handleSubmit E input loading onSend w = (inr input, w).
Proof.
  unfold send_disabled, handleSubmit. intros H.
  destruct (JsString.truthy (JsString.trim input)), loading;
    cbn in H; try discriminate H; reflexivity.
Qed.

(** X8.  A call that has something to send is the part before the [await]
    followed by the part after it.  In between, the user turn is already in
    the list, the hook is loading, the error is cleared and no exchange
    has settled yet; the screen shows the bubbles with the typing indicator
    and no suggestion button, the send button is disabled whatever the
    input, and [handleSubmit] sends nothing. *)
Theorem pending_call_blocks_input (E : Env) closed_over content topK
    (w : World E) :
  JsString.trim content <> [] ->
  let p := snd (sendMessage_pending E content w) in
  sendMessage E closed_over content topK w
  = sendMessage_resume E closed_over content topK p
  /\ isLoading (hook p) = true
  /\ error (hook p) = None
  /\ sessionId (hook p) = sessionId (hook w)
  /\ trace p = trace w
  /\ (exists u,
        messages (hook p) = messages (hook w) ++ [u]
        /\ Message.role u = user
        /\ Message.content u = JsString.trim content
        /\ pane (ChatContainer (hook p))
           = Bubbles (map ChatMessage (messages (hook w)) ++ [ChatMessage u])
                     true)
  /\ (forall input,
        send_disabled input (input_isLoading (ChatContainer (hook p))) = true)
  /\ (forall input onSend,
        handleSubmit E input (input_isLoading (ChatContainer (hook p))) onSend p
        = (inr input, p)).
Proof.
  intros Ht. cbn zeta.
  split; [apply sendMessage_splits, Ht|].
  split; [reflexivity|]. split; [reflexivity|]. split; [reflexivity|].
  split; [reflexivity|]. split; [|split].
  - eexists. split; [reflexivity|]. split; [reflexivity|].
    split; [reflexivity|].
    unfold ChatContainer. cbn [pane]. rewrite pending_hook.
    cbn [messages isLoading]. rewrite length_app, map_app. cbn [length map].
    replace (length (messages (hook w)) + 1)%nat
      with (S (length (messages (hook w)))) by lia.
    reflexivity.
  - intros input. unfold send_disabled. cbn. apply orb_true_r.
  - intros input onSend. apply handleSubmit_disabled.
    unfold send_disabled. cbn. apply orb_true_r.
Qed.

Lemma pending_call_blocks_input_witness :
  let p := snd (sendMessage_pending offline hello offline_world) in
  sendMessage offline None hello None offline_world
  = sendMessage_resume offline None hello None p
  /\ isLoading (hook p) = true
  /\ forall input onSend,
       handleSubmit offline input
         (input_isLoading (ChatContainer (hook p))) onSend p
       = (inr input, p).
Proof.
  pose proof (pending_call_blocks_input offline None hello None offline_world)
    as H.
  cbn zeta in H. destruct H as (H1 & H2 & _ & _ & _ & _ & _ & H8).
  - discriminate.
  - split; [exact H1|]. split; [exact H2 | exact H8].
Defined.

(** X9.  When [clearChat] runs while a call awaits, the list is emptied
    but the hook stays loading and the empty state with its suggestion
    buttons is on screen.  The call then completes all the same: its reply
    becomes the only turn of the list, with no user turn before it, and
    the session id of a parsed response is stored although the chat was
    cleared. *)
Theorem clear_while_pending (E : Env) closed_over content topK (w : World E) :
  JsString.trim content <> [] ->
  let p := snd (sendMessage_pending E content w) in
  let c := snd (call_clearChat E p) in
  let w' := snd (sendMessage_resume E closed_over content topK c) in
  isLoading (hook c) = true
  /\ pane (ChatContainer (hook c)) = EmptyState suggestions
  /\ exists x a,
       trace w' = trace w ++ [x]
       /\ body_member "session_id" x = Some (nullable closed_over)
       /\ messages (hook w') = [a]
       /\ Message.role a = assistant
       /\ isLoading (hook w') = false
       /\ (forall data,
             settled (snd x) = inr data ->
             sessionId (hook w') = Some (ChatResponse.session_id data)
             /\ Message.content a = ChatResponse.answer data)
       /\ (forall err,
             settled (snd x) = inl err ->
             sessionId (hook w') = None
             /\ error (hook w') = Some (errorMessage_of err)).
Proof.
  intros Ht. cbn zeta. split; [reflexivity|]. split; [reflexivity|].
  unfold sendMessage_resume, call_clearChat, useChat, clearChat,
    sendMessage_pending.
  unfold mbind, M_bind, bind, try_catch_finally, fetch. cbn.
  destruct (transport E (net w) _) as [r n] eqn:Htr. cbn.
  destruct r as [e|response]; cbn.
  - eexists (_, inl e), _. cbn.
    do 5 (split; [reflexivity|]).
    split; intros ? [=]; subst; split; reflexivity.
  - destruct (Response.ok response) eqn:Hok; cbn.
    + destruct (Response.json response) as [e|data] eqn:Hj; cbn.
      * eexists (_, inr response), _. cbn. rewrite Hok, Hj.
        do 5 (split; [reflexivity|]).
        split; intros ? [=]; subst; split; reflexivity.
      * eexists (_, inr response), _. cbn. rewrite Hok, Hj.
        do 5 (split; [reflexivity|]).
        split; intros ? [=]; subst; split; reflexivity.
    + eexists (_, inr response), _. cbn. rewrite Hok.
      do 5 (split; [reflexivity|]).
      split; intros ? [=]; subst; split; reflexivity.
Qed.

Lemma clear_while_pending_witness :
  let p := snd (sendMessage_pending online hello (online_world [])) in
  let c := snd (call_clearChat online p) in
  let w' := snd (sendMessage_resume online None hello None c) in
  messages (hook c) = []
  /\ sessionId (hook c) = None
  /\ sessionId (hook w') = Some (SessionStore.new_id ∅)
  /\ length (messages (hook w')) = 1%nat.
Proof.
  pose proof (clear_while_pending online None hello None (online_world [])) as H.
  cbn zeta in H. destruct H as (_ & _ & x & a & Hx & _ & Hm & _ & _ & Hok & _).
  - discriminate.
  - split; [reflexivity|]. split; [reflexivity|]. split.
    + vm_compute. reflexivity.
    + rewrite Hm. reflexivity.
Defined.

(** ** The input box *)

(** X10.  The send button is enabled exactly when [handleSubmit] sends.
    When it is disabled (blank input, or a call is loading) [handleSubmit]
    changes nothing and keeps the text.  When it is enabled, and [onSend]
    is the hook's [sendMessage] as [ChatContainer] passes it, one request
    goes out with the trimmed text as [message] and [top_k] 5, and the box
    is emptied. *)
Theorem handleSubmit_sends_once (E : Env) input (w : World E) :
  let loading := input_isLoading (ChatContainer (hook w)) in
  let onSend := fun text => call_sendMessage E text None in
  (send_disabled input loading = true ->
   handleSubmit E input loading onSend w = (inr input, w))
  /\ (send_disabled input loading = false ->
      handleSubmit E input loading onSend w
      = (inr [], world_after (sessionId (hook w)) input None w)
      /\ exists x,
           trace (snd (handleSubmit E input loading onSend w)) = trace w ++ [x]
           /\ body_member "message" x = Some (JString (JsString.trim input))
           /\ body_member "top_k" x = Some (JNumber 5)).
Proof.
  cbn zeta. split; [apply handleSubmit_disabled|].
  intros H. unfold send_disabled in H. apply orb_false_iff in H as [Ht Hl].
  apply negb_false_iff in Ht.
  assert (Hne : JsString.trim input <> []).
  { intros Hn. rewrite Hn in Ht. discriminate. }
  assert (Hrun : handleSubmit E input (input_isLoading (ChatContainer (hook w)))
                   (fun text => call_sendMessage E text None) w
                 = (inr [], world_after (sessionId (hook w)) input None w)).
  { unfold handleSubmit. rewrite Ht, Hl. cbn [negb andb].
    unfold mbind, M_bind, bind, call_sendMessage, useChat.
    cbn [use_sendMessage]. rewrite sendMessage_sent by exact Hne. reflexivity. }
  split; [exact Hrun|]. rewrite Hrun. cbn [snd].
  eexists. split; [apply trace_after|]. split; reflexivity.
Qed.

Lemma handleSubmit_sends_once_witness :
  handleSubmit offline blanks false (fun text => call_sendMessage offline text None)
    offline_world
  = (inr blanks, offline_world)
  /\ handleSubmit offline padded_hello false
       (fun text => call_sendMessage offline text None) offline_world
     = (inr [], world_after None padded_hello None offline_world).
Proof.
  split.
  - apply (proj1 (handleSubmit_sends_once offline blanks offline_world)).
    reflexivity.
  - apply (proj2 (handleSubmit_sends_once offline padded_hello offline_world)).
    reflexivity.
Defined.

(** X11.  Of all key presses only Enter without Shift reaches
    [handleSubmit].  Any other key, and Enter with Shift, leaves the text
    and the world alone and does not prevent the default, so Shift+Enter
    makes a new line.  Enter alone always prevents the default, and when
    the send button is disabled it does nothing else: no request, no new
    line. *)
Theorem only_enter_submits (E : Env) (e : KeyboardEvent) input loading onSend
    (w : World E) :
  ((key e <> JsString.lit "Enter" \/ shiftKey e = true) ->
   handleKeyDown E e input loading onSend w = (inr (input, false), w))
  /\ (key e = JsString.lit "Enter" -> shiftKey e = false ->
      send_disabled input loading = true ->
      handleKeyDown E e input loading onSend w = (inr (input, true), w))
  /\ (key e = JsString.lit "Enter" -> shiftKey e = false ->
      handleKeyDown E e input loading onSend w
      = match handleSubmit E input loading onSend w with
        | (inl err, w') => (inl err, w')
        | (inr input', w') => (inr (input', true), w')
        end).
Proof.
  unfold handleKeyDown. split; [|split].
  - intros [Hk|Hs].
    + rewrite bool_decide_eq_false_2 by exact Hk. reflexivity.
    + rewrite Hs, andb_false_r. reflexivity.
  - intros Hk Hs Hd. rewrite bool_decide_eq_true_2 by exact Hk. rewrite Hs.
    cbn [negb andb]. unfold mbind, M_bind, bind.
    rewrite handleSubmit_disabled by exact Hd. reflexivity.
  - intros Hk Hs. rewrite bool_decide_eq_true_2 by exact Hk. rewrite Hs.
    cbn [negb andb]. unfold mbind, M_bind, bind.
    destruct (handleSubmit E input loading onSend w) as [[err|i] w'];
      reflexivity.
Qed.

Lemma only_enter_submits_witness :
  handleKeyDown offline {| key := JsString.lit "Enter"; shiftKey := true |}
    hello false (fun text => call_sendMessage offline text None) offline_world
  = (inr (hello, false), offline_world)
  /\ handleKeyDown offline {| key := JsString.lit "Enter"; shiftKey := false |}
       blanks false (fun text => call_sendMessage offline text None)
       offline_world
     = (inr (blanks, true), offline_world).
Proof.
  split.
  - apply (proj1 (only_enter_submits offline
                    {| key := JsString.lit "Enter"; shiftKey := true |}
                    hello false _ offline_world)).
    right. reflexivity.
  - apply (proj1 (proj2 (only_enter_submits offline
                    {| key := JsString.lit "Enter"; shiftKey := false |}
                    blanks false _ offline_world))); reflexivity.
Defined.

(** ** The header and the empty state *)

(** X12.  The header shows [Session: ], the first eight code units of the
    session id and three dots; an id of eight units or fewer is shown
    whole.  It shows the invitation when there is no id and also when the
    id is the empty string.  Ids that agree on their first eight units get
    the same header.  After [clearChat] the header is the invitation. *)
Theorem ChatHeader_shows_prefix :
  (forall id, id <> [] ->
     ChatHeader (Some id)
     = JsString.lit "Session: " ++ take 8 id ++ JsString.lit "...")
  /\ (forall id, id <> [] -> (length id <= 8)%nat ->
        ChatHeader (Some id)
        = JsString.lit "Session: " ++ id ++ JsString.lit "...")
  /\ ChatHeader (Some []) = ChatHeader None
  /\ (forall id id', id <> [] -> id' <> [] -> take 8 id = take 8 id' ->
        ChatHeader (Some id) = ChatHeader (Some id'))
  /\ (forall (E : Env) (w : World E),
        header (ChatContainer (hook (snd (call_clearChat E w))))
        = JsString.lit "Ask questions about holdings & trades").
Proof.
  assert (H : forall id, id <> [] ->
            ChatHeader (Some id)
            = JsString.lit "Session: " ++ take 8 id ++ JsString.lit "...").
  { intros [|c id] Hne; [done | reflexivity]. }
  split; [exact H|]. split; [|split; [reflexivity|split]].
  - intros id Hne Hlen. rewrite (H id Hne), take_ge by exact Hlen. reflexivity.
  - intros id id' Hne Hne' Heq. rewrite (H id Hne), (H id' Hne'), Heq.
    reflexivity.
  - reflexivity.
Qed.

Lemma ChatHeader_shows_prefix_witness :
  ChatHeader (Some (JsString.lit "0123456789abcdef"))
  = JsString.lit "Session: 01234567..."
  /\ ChatHeader (Some (JsString.lit "abc")) = JsString.lit "Session: abc...".
Proof.
  split.
  - rewrite (proj1 ChatHeader_shows_prefix (JsString.lit "0123456789abcdef"))
      by discriminate.
    reflexivity.
  - rewrite (proj1 (proj2 ChatHeader_shows_prefix) (JsString.lit "abc"));
      [reflexivity | discriminate | cbn; lia].
Defined.

Lemma suggestions_sendable :
  Forall (fun text => JsString.trim text = text /\ text <> []) suggestions.
Proof. repeat constructor; discriminate. Qed.



(** ** Badges *)

Lemma startsWith_length pat s :
  JsString.startsWith pat s = true -> (length pat <= length s)%nat.
Proof.
  revert s. induction pat as [|p pat IH]; intros [|c s] H; cbn in *;
    try lia; try discriminate.
  apply andb_true_iff in H as [_ H]. apply IH in H. lia.
Qed.

Lemma replace_absent pat rep s :
  includes pat s = false -> JsString.replace pat rep s = s.
Proof.
  induction s as [|c s IH]; cbn [includes JsString.replace]; intros H;
    apply orb_false_iff in H as [Hs Hi]; rewrite Hs; [reflexivity|].
  rewrite IH by exact Hi. reflexivity.
Qed.

Lemma replace_present pat s :
  includes pat s = true ->
  (length (JsString.replace pat [] s) + length pat = length s)%nat.
Proof.
  induction s as [|c s IH]; cbn [includes JsString.replace]; intros H.
  - destruct (JsString.startsWith pat []) eqn:Hs; [|discriminate].
    apply startsWith_length in Hs. cbn in *. rewrite length_drop. cbn. lia.
  - destruct (JsString.startsWith pat (c :: s)) eqn:Hs.
    + apply startsWith_length in Hs. cbn [app]. rewrite length_drop. lia.
    + cbn in H. apply IH in H. cbn [length]. lia.
Qed.

Lemma replace_csv_first stem rest :
  46 ∉ stem ->
  JsString.replace (JsString.lit ".csv") []
    (stem ++ JsString.lit ".csv" ++ rest)
  = stem ++ rest.
Proof.
  change (JsString.lit ".csv") with [46; 99; 115; 118].
  induction stem as [|c stem IH]; intros Hdot.
  - cbn [app JsString.replace JsString.startsWith]. rewrite !N.eqb_refl.
    reflexivity.
  - assert (Hc : (46 =? c) = false).
    { apply N.eqb_neq. intros <-. apply Hdot. left. }
    cbn [app JsString.replace JsString.startsWith]. rewrite Hc.
    cbn [andb]. f_equal. apply IH.
    intros Hin. apply Hdot. right. exact Hin.
Qed.

(** X14.  A message shows one badge per source and none when its sources
    are missing or empty.  The label of a badge is the file as it is when
    [.csv] does not occur in it; otherwise it is four code units shorter,
    and only the first [.csv] is gone.  The holdings colour goes to the
    badges whose label is [holdings], whatever the file was called. *)
Theorem SourceBadge_file_label (message : Message.t) (source : Source.t) :
  badges (ChatMessage message)
  = map SourceBadge (default [] (Message.sources message))
  /\ (includes (JsString.lit ".csv") (Source.file source) = false ->
      fileName (SourceBadge source) = Source.file source)
  /\ (includes (JsString.lit ".csv") (Source.file source) = true ->
      (length (fileName (SourceBadge source)) + 4
       = length (Source.file source))%nat)
  /\ (forall stem rest,
        46 ∉ stem ->
        Source.file source = stem ++ JsString.lit ".csv" ++ rest ->
        fileName (SourceBadge source) = stem ++ rest)
  /\ (isHoldings (SourceBadge source) = true
      <-> fileName (SourceBadge source) = JsString.lit "holdings").
Proof.
  split; [|split; [|split; [|split]]].
  - unfold ChatMessage, ChatMessage_sources. cbn [badges].
    destruct (Message.sources message) as [[|s l]|]; reflexivity.
  - apply replace_absent.
  - intros H. apply (replace_present _ _ H).
  - intros stem rest Hdot Hfile. cbn [SourceBadge fileName]. rewrite Hfile.
    apply replace_csv_first, Hdot.
  - cbn [SourceBadge isHoldings fileName]. apply bool_decide_eq_true.
Qed.

Lemma SourceBadge_file_label_witness :
  fileName (SourceBadge (Source.mk (JsString.lit "trades") 7))
  = JsString.lit "trades"
  /\ fileName (SourceBadge (Source.mk (JsString.lit "old.csv.csv") 7))
     = JsString.lit "old.csv"
  /\ isHoldings (SourceBadge (Source.mk (JsString.lit ".csvholdings") 0)) = true.
Proof.
  pose proof (SourceBadge_file_label
                (Message.mk [] user [] None 0)
                (Source.mk (JsString.lit "trades") 7)) as (_ & H1 & _).
  pose proof (SourceBadge_file_label
                (Message.mk [] user [] None 0)
                (Source.mk (JsString.lit "old.csv.csv") 7)) as (_ & _ & _ & H2 & _).
  pose proof (SourceBadge_file_label
                (Message.mk [] user [] None 0)
                (Source.mk (JsString.lit ".csvholdings") 0)) as (_ & _ & _ & _ & H3).
  split; [apply H1; reflexivity|]. split.
  - apply (H2 (JsString.lit "old") (JsString.lit ".csv")); [|reflexivity].
    vm_compute. intros H. repeat (apply elem_of_cons in H as [H|H]; [discriminate|]).
    inversion H.
  - apply H3. reflexivity.
Defined.

(** ** Numbers in decimal *)

Lemma lit_inj s1 s2 : JsString.lit s1 = JsString.lit s2 -> s1 = s2.
Proof.
  unfold JsString.lit. intros H.
  assert (Hback : forall l, map ascii_of_N (map N_of_ascii l) = l).
  { induction l as [|a l IH]; [reflexivity|].
    cbn [map]. rewrite ascii_N_embedding, IH. reflexivity. }
  apply (f_equal (map ascii_of_N)) in H. rewrite !Hback in H.
  rewrite <- (string_of_list_ascii_of_string s1),
          <- (string_of_list_ascii_of_string s2), H.
  reflexivity.
Qed.

Lemma to_int_digits z :
  Z.to_int z <> Decimal.Pos Decimal.Nil /\ Z.to_int z <> Decimal.Neg Decimal.Nil.
Proof.
  split; intros H;
    assert (Hz : z = 0%Z)
      by (rewrite <- (DecimalZ.of_to z), H; reflexivity);
    subst z; discriminate H.
Qed.

(** The decimal text of a number tells the number. *)
Lemma ofNumber_inj z1 z2 :
  JsString.ofNumber z1 = JsString.ofNumber z2 -> z1 = z2.
Proof.
  unfold JsString.ofNumber. intros H. apply lit_inj in H.
  apply (f_equal NilZero.int_of_string) in H.
  destruct (to_int_digits z1) as [Hp1 Hn1].
  destruct (to_int_digits z2) as [Hp2 Hn2].
  rewrite !NilZero.isi in H by assumption.
  injection H as H. apply DecimalZ.to_int_inj, H.
Qed.

(** ** The second half of a call *)

Lemma sendMessage_resumed (E : Env) closed_over content topK (w : World E) :
  sendMessage_resume E closed_over content topK w
  = (inr tt, world_resumed closed_over content topK w).
Proof.
  unfold sendMessage_resume, world_resumed, chat_request.
  unfold mbind, M_bind, bind, try_catch_finally, fetch, settled. cbn.
  destruct (transport E (net w) _) as [r n]. cbn.
  destruct r as [e|response]; cbn; [reflexivity|].
  destruct (Response.ok response); cbn; [|reflexivity].
  destruct (Response.json response) as [e|data]; reflexivity.
Qed.

Lemma hook_resumed (E : Env) closed_over content topK (w : World E) :
  let w' := world_resumed closed_over content topK w in
  let r := fst (transport E (net w) (chat_request closed_over content topK)) in
  trace w' = trace w ++ [(chat_request closed_over content topK, r)]
  /\ isLoading (hook w') = false
  /\ exists a,
       messages (hook w') = messages (hook w) ++ [a]
       /\ Message.role a = assistant
       /\ match settled r with
          | inr data =>
              Message.content a = ChatResponse.answer data
              /\ sessionId (hook w') = Some (ChatResponse.session_id data)
              /\ error (hook w') = error (hook w)
          | inl err =>
              Message.content a = error_text (errorMessage_of err)
              /\ sessionId (hook w') = sessionId (hook w)
              /\ error (hook w') = Some (errorMessage_of err)
          end.
Proof.
  unfold world_resumed.
  destruct (transport E (net w) _) as [r n]. cbn [fst].
  destruct (settled r) as [err|data]; cbn;
    (split; [reflexivity|]); (split; [reflexivity|]);
    eexists; repeat split; reflexivity.
Qed.

(** ** The response and its citations *)

Lemma isSource_toJSON source : isSource (Source_toJSON source) = true.
Proof. reflexivity. Qed.

Lemma isChatResponse_toJSON data :
  isChatResponse (ChatResponse_toJSON data) = true.
Proof.
  unfold isChatResponse, ChatResponse_toJSON. cbn.
  induction (ChatResponse.sources data) as [|s l IH]; [reflexivity|].
  cbn [map forallb]. rewrite isSource_toJSON. exact IH.
Qed.

(** C5, as it is worded, fails twice.  A successful response need not have
    the shape: the body [{}] is read without complaint, all three
    properties [undefined].  And a citation does not show its file: for
    [holdings.csv] the badge reads [holdings], the same as for a file
    called [holdings]. *)
Lemma citation_does_not_show_its_file :
  (isChatResponse (JObject []) = false
   /\ read_data (JObject []) = Fields None None None)
  /\ fileName (SourceBadge (Source.mk (JsString.lit "holdings.csv") 2))
     <> Source.file (Source.mk (JsString.lit "holdings.csv") 2)
  /\ SourceBadge (Source.mk (JsString.lit "holdings.csv") 2)
     = SourceBadge (Source.mk (JsString.lit "holdings") 2).
Proof.
  split; [split; reflexivity|]. split; [|reflexivity].
  vm_compute. discriminate.
Qed.

(** C5, as the code has it.  A body of the shape [ChatResponse] is read as
    it stands, nothing being checked.  When the exchange of a call
    succeeded with such [data], its [session_id] is stored, its [answer] is
    the text of the assistant turn and its [sources] are that turn's
    sources.  The message shows one badge per source, in the order of the
    list.  The badge of a source names the [file] with the first [.csv]
    removed, so that for [stem.csv] it reads [stem]; and it reads [row]
    and the [row_index], in decimal for a safe integer, from which a
    safe [row_index] can be told. *)
Theorem response_is_rendered (E : Env) closed_over content topK (w : World E)
    x data :
  let w' := snd (sendMessage E closed_over content topK w) in
  trace w' = trace w ++ [x] ->
  settled (snd x) = inr data ->
  isChatResponse (ChatResponse_toJSON data) = true
  /\ read_data (ChatResponse_toJSON data)
     = Fields (Some (JString (ChatResponse.session_id data)))
              (Some (JString (ChatResponse.answer data)))
              (Some (JArray (map Source_toJSON (ChatResponse.sources data))))
  /\ exists u a,
       messages (hook w') = messages (hook w) ++ [u; a]
       /\ sessionId (hook w') = Some (ChatResponse.session_id data)
       /\ ChatMessage_text a = ChatResponse.answer data
       /\ Message.sources a = Some (ChatResponse.sources data)
       /\ ChatMessage_sources a = map SourceBadge (ChatResponse.sources data)
       /\ forall i source,
            ChatResponse.sources data !! i = Some source ->
            exists badge,
              ChatMessage_sources a !! i = Some badge
              /\ fileName badge
                 = JsString.replace (JsString.lit ".csv") [] (Source.file source)
              /\ (forall stem,
                    46 ∉ stem ->
                    Source.file source = stem ++ JsString.lit ".csv" ->
                    fileName badge = stem)
              /\ (JsString.isSafeInteger (Source.row_index source) = true ->
                  rowText badge
                  = JsString.lit "row "
                    ++ JsString.lit
                         (NilZero.string_of_int
                            (Z.to_int (Source.row_index source))))
              /\ (forall other,
                    JsString.isSafeInteger (Source.row_index source) = true ->
                    JsString.isSafeInteger (Source.row_index other) = true ->
                    rowText (SourceBadge other) = rowText badge ->
                    Source.row_index other = Source.row_index source).
Proof.
  cbn zeta. intros Hx Hdata.
  split; [apply isChatResponse_toJSON|]. split; [reflexivity|].
  destruct (sent_inv E _ _ _ _ _ Hx) as [Ht ->]. cbn [snd] in Hdata.
  rewrite (sendMessage_sent E closed_over content topK w Ht). cbn [snd].
  destruct (hook_after E closed_over content topK w)
    as (u & a & Hm & _ & _ & _ & _ & _ & Hr).
  rewrite Hdata in Hr. destruct Hr as (Hc & Hs & Hid & _).
  exists u, a. repeat split; try assumption.
  - apply ChatMessage_sources_map, Hs.
  - intros i source Hi. exists (SourceBadge source).
    rewrite (ChatMessage_sources_map _ _ Hs).
    split; [|split; [reflexivity|split; [|split; [reflexivity|]]]].
    + change (map SourceBadge) with (fmap (M:=list) SourceBadge).
      rewrite list_lookup_fmap, Hi. reflexivity.
    + intros stem Hdot Hfile. cbn [SourceBadge fileName]. rewrite Hfile.
      apply replace_csv_suffix, Hdot.
    + intros other _ _ Hrow. cbn [SourceBadge rowText] in Hrow.
      apply app_inv_head in Hrow. apply ofNumber_inj, Hrow.
Qed.

Lemma response_is_rendered_witness :
  exists u a,
    messages (hook (snd (sendMessage online None hello None (online_world []))))
    = messages (hook (online_world [])) ++ [u; a]
    /\ sessionId (hook (snd (sendMessage online None hello None (online_world []))))
       = Some (ChatResponse.session_id demo_data)
    /\ ChatMessage_text a = ChatResponse.answer demo_data
    /\ Message.sources a = Some (ChatResponse.sources demo_data)
    /\ ChatMessage_sources a = map SourceBadge (ChatResponse.sources demo_data)
    /\ forall i source,
         ChatResponse.sources demo_data !! i = Some source ->
         exists badge,
           ChatMessage_sources a !! i = Some badge
           /\ fileName badge
              = JsString.replace (JsString.lit ".csv") [] (Source.file source)
           /\ (forall stem,
                 46 ∉ stem ->
                 Source.file source = stem ++ JsString.lit ".csv" ->
                 fileName badge = stem)
           /\ (JsString.isSafeInteger (Source.row_index source) = true ->
               rowText badge
               = JsString.lit "row "
                 ++ JsString.lit
                      (NilZero.string_of_int
                         (Z.to_int (Source.row_index source))))
           /\ (forall other,
                 JsString.isSafeInteger (Source.row_index source) = true ->
                 JsString.isSafeInteger (Source.row_index other) = true ->
                 rowText (SourceBadge other) = rowText badge ->
                 Source.row_index other = Source.row_index source).
Proof.
  destruct (response_is_rendered online None hello None (online_world [])
              (chat_request None hello None,
               inr (Response.mk 200 (inr demo_data)))
              demo_data) as (_ & _ & H).
  - vm_compute. reflexivity.
  - reflexivity.
  - exact H.
Defined.

(** ** A reset, and a reset while a call awaits *)




(** ** Calls that overlap *)

Section Pages.
Context (E : Env).
Implicit Types (pg : Page E).

Lemma begin_at_rest content topK pg :
  at_rest pg ->
  JsString.trim content <> [] ->
  one_awaiting (begin content topK pg).
Proof.
  intros (Ha & Hm & _) Ht. unfold begin.
  destruct (JsString.trim content) as [|c s] eqn:Hc; [done|].
  cbn [JsString.truthy].
  eexists _, (messages (hook (world pg))), _. cbn [awaiting world].
  rewrite Ha, pending_hook. cbn [messages isLoading app].
  repeat split. exact Hm.
Qed.

Lemma step_at_rest pg e :
  at_rest pg -> is_clear e = false ->
  at_rest (step pg e) \/ one_awaiting (step pg e).
Proof.
  intros Hr Hc. pose proof Hr as (Ha & Hm & Hl).
  destruct e as [input|i| |k]; [| | discriminate |]; cbn [step].
  - unfold ChatContainer. cbn [input_isLoading]. rewrite Hl.
    unfold send_disabled. rewrite orb_false_r.
    destruct (JsString.truthy (JsString.trim input)) eqn:Ht; cbn [negb].
    + right. apply begin_at_rest; [exact Hr|].
      intros Hn. rewrite Hn in Ht. discriminate.
    + left. exact Hr.
  - unfold ChatContainer. cbn [pane].
    destruct (Nat.eqb (length (messages (hook (world pg)))) 0); [|left; exact Hr].
    destruct (suggestions !! i) as [text|] eqn:Hi; [|left; exact Hr].
    right. apply begin_at_rest; [exact Hr|].
    pose proof suggestions_sendable as Hs. rewrite Forall_forall in Hs.
    destruct (Hs text) as [Htrim Hne].
    { apply list_elem_of_lookup. eauto. }
    rewrite Htrim. exact Hne.
  - rewrite Ha. destruct k; left; exact Hr.
Qed.

Lemma step_one_awaiting pg e :
  one_awaiting pg -> is_clear e = false ->
  at_rest (step pg e) \/ one_awaiting (step pg e).
Proof.
  intros Ho Hc. pose proof Ho as (call & turns & u & Ha & Hm & Halt & Hu & Hl).
  destruct e as [input|i| |k]; [| | discriminate |]; cbn [step].
  - unfold ChatContainer. cbn [input_isLoading]. rewrite Hl.
    unfold send_disabled. rewrite orb_true_r. right. exact Ho.
  - unfold ChatContainer. cbn [pane]. rewrite Hm, length_app. cbn [length].
    replace (length turns + 1)%nat with (S (length turns)) by lia.
    cbn [Nat.eqb]. right. exact Ho.
  - rewrite Ha. destruct k as [|[|k]]; [|right; exact Ho|right; exact Ho].
    left. cbn. rewrite sendMessage_resumed. cbn [snd].
      destruct (hook_resumed E (awaiting_sessionId call) (awaiting_content call)
                  (awaiting_topK call) (world pg))
        as (_ & Hload & a & Hm' & Hrole & _).
      split; [reflexivity|]. cbn [world]. split; [|exact Hload].
      rewrite Hm', Hm, <- app_assoc. cbn [app].
      apply alternates_app; assumption.
Qed.

End Pages.

(** X6.  As long as the chat is not cleared, calls never overlap: whatever
    the user submits or clicks and whenever the responses settle, at most
    one call awaits.  When none awaits, the list is made of exchanges, a
    user turn and then an assistant turn, so it does not end with a user
    turn, and the hook is not loading.  While one awaits, the list is
    exchanges followed by that call's user turn, and the hook is loading. *)
Theorem turns_alternate_unless_cleared (E : Env) events (pg : Page E) :
  at_rest pg ->
  existsb is_clear events = false ->
  let pg' := foldl step pg events in
  (at_rest pg' \/ one_awaiting pg')
  /\ (length (awaiting pg') <= 1)%nat
  /\ (awaiting pg' = [] ->
      alternates (messages (hook (world pg'))) = true
      /\ isLoading (hook (world pg')) = false
      /\ forall m, last (messages (hook (world pg'))) = Some m ->
                   Message.role m = assistant).
Proof.
  intros Hr Hc. cbn zeta.
  assert (H : at_rest (foldl step pg events)
              \/ one_awaiting (foldl step pg events)).
  { assert (Hinv : at_rest pg \/ one_awaiting pg) by (left; exact Hr).
    clear Hr. revert pg Hinv.
    induction events as [|e events IH]; intros pg Hinv; [exact Hinv|].
    cbn [existsb] in Hc. apply orb_false_iff in Hc as [He Hc].
    cbn [foldl]. apply (IH Hc). destruct Hinv as [Hinv|Hinv].
    - apply step_at_rest; assumption.
    - apply step_one_awaiting; assumption. }
  split; [exact H|]. split.
  - destruct H as [(-> & _)|(call & turns & u & -> & _)]; cbn; lia.
  - intros Hnil. destruct H as [(_ & Hm & Hl)|(call & turns & u & Ha & _)].
    + split; [exact Hm|]. split; [exact Hl|].
      intros m. apply alternates_last, Hm.
    + rewrite Ha in Hnil. discriminate.
Qed.

Lemma turns_alternate_unless_cleared_witness :
  let pg' := foldl step offline_page busy_afternoon in
  (at_rest pg' \/ one_awaiting pg')
  /\ (length (awaiting pg') <= 1)%nat
  /\ (awaiting pg' = [] ->
      alternates (messages (hook (world pg'))) = true
      /\ isLoading (hook (world pg')) = false
      /\ forall m, last (messages (hook (world pg'))) = Some m ->
                   Message.role m = assistant).
Proof.
  apply (turns_alternate_unless_cleared offline busy_afternoon offline_page).
  - repeat split.
  - reflexivity.
Defined.
